(** * Dash: multi-repository package lookup (src/dash/dash.py)

    A shallow embedding of [PkgRepo], [RepoCollection] and the loading of
    the configured repositories, followed by the properties of the
    specification that concern them.

    - Python values coming out of [Response.json()] are values of [json].
    - A [string] holds the UTF-8 encoding of a Python [str].
    - A Python [dict] is an insertion-ordered association list: assigning to
      a key that is present replaces the value in place, assigning to a new
      key appends.
    - Effects are explicit.  A computation is run against the state of the
      remote hosts, it returns a value or raises, and it emits the ordered
      trace of what the process did to the outside: HTTP requests and log
      lines. *)

From Stdlib Require Import String Ascii List Bool Arith ZArith Lia.
From Stdlib Require Import DecimalString.
Import ListNotations.
Open Scope list_scope.
Open Scope string_scope.

(* ================================================================== *)
(** ** Python values *)

(** What [json.loads] can produce.  A number keeps its literal: the program
    never computes with one.  An object keeps its members in document
    order, as a Python [dict] does. *)
#[warnings="-register-all"]
Inductive json : Type :=
| JNull
| JBool (b : bool)
| JNum (literal : string)
| JStr (s : string)
| JArr (items : list json)
| JObj (members : list (string * json)).

(** The exceptions that can escape the code. *)
Inductive exn : Type :=
| RequestException            (* requests.get obtained no response *)
| JSONDecodeError             (* Response.json() on a body that is not JSON *)
| TypeError
| KeyError (key : string)
| PyException (msg : string)  (* raise Exception(msg) *)
| SystemExit (code : Z).      (* exit(code) *)

Inductive result (A : Type) : Type :=
| Ok (a : A)
| Raise (e : exn).
Arguments Ok {A} a.
Arguments Raise {A} e.

(** [requests.Response]: the status line and what [.json()] makes of the
    body ([None] when the body is not well-formed JSON). *)
Record Response : Type := mkResponse {
  status_code : Z;
  body_json : option json
}.

Inductive level : Type := DEBUG | INFO | CRITICAL.

(** What the process does to the outside world, in order. *)
Inductive event : Type :=
| Request (target : string)          (* requests.get(target) *)
| Log (lvl : level) (msg : string).  (* logger.<lvl>(msg) *)

(* ------------------------------------------------------------------ *)
(** *** Strings *)

(** [t in s] for two [str]: [t] occurs somewhere in [s]. *)
Fixpoint str_in (t s : string) : bool :=
  String.prefix t s ||
  match s with
  | EmptyString => false
  | String _ s' => str_in t s'
  end.

(** [str(n)] for a non-negative [int]. *)
Definition str_of_nat (n : nat) : string :=
  NilEmpty.string_of_uint (Nat.to_uint n).

(** [str(s)] for a [str] is [s] itself. *)
Definition str_of_str (s : string) : string := s.

(** [sep.join(l)]. *)
Definition join (sep : string) (l : list string) : string :=
  String.concat sep l.

(** A continuation byte of UTF-8: [10xxxxxx]. *)
Definition continuation (c : ascii) : bool :=
  match c with
  | Ascii _ _ _ _ _ _ b6 b7 => b7 && negb b6
  end.

(** Reading a string from its end: the continuation bytes that still wait
    for their leading byte, and the characters completed so far. *)
Fixpoint chars_from_end (s : string) : string * list string :=
  match s with
  | EmptyString => (EmptyString, [])
  | String c s' =>
      let (waiting, complete) := chars_from_end s' in
      if continuation c then (String c waiting, complete)
      else (EmptyString, String c waiting :: complete)
  end.

(** The characters (code points) of a string, each as a one-character
    string: a leading byte with the continuation bytes that follow it. *)
Definition chars (s : string) : list string :=
  match chars_from_end s with
  | (EmptyString, complete) => complete
  | (waiting, complete) => waiting :: complete
  end.

(* ------------------------------------------------------------------ *)
(** *** Dictionaries *)

Definition dict (V : Type) : Type := list (string * V).

Fixpoint dict_get {V} (k : string) (d : dict V) : option V :=
  match d with
  | [] => None
  | (k', v) :: d' => if String.eqb k k' then Some v else dict_get k d'
  end.

(** [d[k] = v] *)
Fixpoint dict_setitem {V} (k : string) (v : V) (d : dict V) : dict V :=
  match d with
  | [] => [(k, v)]
  | (k', v') :: d' =>
      if String.eqb k k' then (k, v) :: d' else (k', v') :: dict_setitem k v d'
  end.

(** [k in d] *)
Definition dict_contains {V} (k : string) (d : dict V) : bool :=
  match dict_get k d with Some _ => true | None => false end.

(** [d.keys()], also what iterating [d] yields. *)
Definition dict_keys {V} (d : dict V) : list string := map fst d.

(** [d.values()] *)
Definition dict_values {V} (d : dict V) : list V := map snd d.

(* ------------------------------------------------------------------ *)
(** *** Operations of the language on parsed JSON *)

(** [for x in data]: the values the loop visits, or [TypeError] when
    [data] is not iterable. *)
Definition py_iter (data : json) : result (list json) :=
  match data with
  | JArr items => Ok items
  | JObj members => Ok (map JStr (dict_keys members))
  | JStr s => Ok (map JStr (chars s))
  | JNull | JBool _ | JNum _ => Raise TypeError
  end.

(** [term == x] for a [str] on the left. *)
Definition str_eq_json (term : string) (x : json) : bool :=
  match x with
  | JStr s => String.eqb term s
  | _ => false
  end.

(** [term in x] for a [str] on the left: substring test on a [str],
    membership on a list, key membership on a dict, [TypeError] on the
    rest. *)
Definition py_in (term : string) (x : json) : result bool :=
  match x with
  | JStr s => Ok (str_in term s)
  | JArr items => Ok (existsb (str_eq_json term) items)
  | JObj members => Ok (existsb (String.eqb term) (dict_keys members))
  | JNull | JBool _ | JNum _ => Raise TypeError
  end.

(** [len(data)] *)
Definition py_len (data : json) : result nat :=
  match data with
  | JArr items => Ok (List.length items)
  | JObj members => Ok (List.length members)
  | JStr s => Ok (List.length (chars s))
  | JNull | JBool _ | JNum _ => Raise TypeError
  end.

(* ================================================================== *)
(** ** Computations *)

(** A computation over a state [St]: the value or the exception, the state
    it leaves, and the events it emitted. *)
Definition M (St A : Type) : Type := St -> result A * St * list event.

Definition ret {St A} (a : A) : M St A := fun st => (Ok a, st, []).

Definition raise {St A} (e : exn) : M St A := fun st => (Raise e, st, []).

Definition bind {St A B} (m : M St A) (f : A -> M St B) : M St B :=
  fun st =>
    match m st with
    | (Ok a, st1, t1) =>
        match f a st1 with
        | (r, st2, t2) => (r, st2, t1 ++ t2)%list
        end
    | (Raise e, st1, t1) => (Raise e, st1, t1)
    end.

Definition lift {St A} (r : result A) : M St A := fun st => (r, st, []).

Definition emit {St} (ev : event) : M St unit := fun st => (Ok tt, st, [ev]).

Notation "x <- m ;; k" := (bind m (fun x => k))
  (at level 61, m at next level, right associativity).
Notation "m ;; k" := (bind m (fun _ => k))
  (at level 61, right associativity).

(** [for x in l: s = body(x, s)] *)
Fixpoint for_each {St A S} (l : list A) (body : A -> S -> M St S) (s : S)
  : M St S :=
  match l with
  | [] => ret s
  | x :: l' => s' <- body x s ;; for_each l' body s'
  end.

Definition value_of {St A} (o : result A * St * list event) : result A :=
  fst (fst o).
Definition state_of {St A} (o : result A * St * list event) : St :=
  snd (fst o).
Definition trace_of {St A} (o : result A * St * list event) : list event :=
  snd o.

(** The requests among the events of a trace. *)
Fixpoint requests (t : list event) : list string :=
  match t with
  | [] => []
  | Request u :: t' => u :: requests t'
  | Log _ _ :: t' => requests t'
  end.

(** [logger.debug], [logger.info], [logger.critical] *)
Definition logger_debug {St} (msg : string) : M St unit := emit (Log DEBUG msg).
Definition logger_info {St} (msg : string) : M St unit := emit (Log INFO msg).
Definition logger_critical {St} (msg : string) : M St unit :=
  emit (Log CRITICAL msg).

(** [exit(code)] *)
Definition exit {St A} (code : Z) : M St A := raise (SystemExit code).

(** [d[k]] *)
Definition dict_getitem {St V} (d : dict V) (k : string) : M St V :=
  match dict_get k d with
  | Some v => ret v
  | None => raise (KeyError k)
  end.

(* ================================================================== *)
(** ** The program *)

(** [class PkgRepo]: [self.name], [self.url]. *)
Record PkgRepo : Type := mkPkgRepo {
  name : string;
  url : string
}.

(** [PkgRepo.__str__] *)
Definition PkgRepo_str (self : PkgRepo) : string :=
  "Package Repo " ++ name self ++ " @ " ++ url self.

(** [class RepoCollection]: [self.repos]. *)
Record RepoCollection : Type := mkRepoCollection {
  repos : dict PkgRepo
}.

(** [RepoCollection.__init__] *)
Definition RepoCollection_init : RepoCollection := {| repos := [] |}.

(** [RepoCollection.__str__]: the comprehension iterates the dict, that is
    its keys. *)
Definition RepoCollection_str (self : RepoCollection) : string :=
  "Repo Collection: " ++ join ", " (map str_of_str (dict_keys (repos self))).

(** [RepoCollection.add] *)
Definition RepoCollection_add (self : RepoCollection) (repo : PkgRepo)
  : RepoCollection :=
  {| repos := dict_setitem (name repo) repo (repos self) |}.

(** What [RepoCollection.exists] returns: [False] or a list of names. *)
Inductive found : Type :=
| PyFalse
| PyList (names : list string).

Section Dash.

(** The remote hosts: a state, and what a GET on a URL answers in that
    state ([None] when no response is obtained: connection refused, time
    out) together with the state the hosts are in afterwards. *)
Variable Remote : Type.
Variable serve : string -> Remote -> option Response * Remote.

(** [requests.get(target)] *)
Definition requests_get (target : string) : M Remote Response :=
  fun rm =>
    match serve target rm with
    | (Some r, rm') => (Ok r, rm', [Request target])
    | (None, rm') => (Raise RequestException, rm', [Request target])
    end.

(** [r.json()] *)
Definition Response_json (r : Response) : M Remote json :=
  match body_json r with
  | Some j => ret j
  | None => raise JSONDecodeError
  end.

(** [PkgRepo.exists] *)
Definition PkgRepo_exists (self : PkgRepo) (pkg : string) : M Remote bool :=
  logger_debug ("Checking if package " ++ pkg ++ " exists in repo "
                ++ name self ++ "...") ;;
  r <- requests_get (url self ++ "/packages/" ++ pkg ++ ".json") ;;
  if (status_code r =? 404)%Z then
    logger_debug ("Package " ++ pkg ++ " not found in repo "
                  ++ name self ++ ".") ;;
    ret false
  else ret true.

(** [PkgRepo.get] *)
Definition PkgRepo_get (self : PkgRepo) (pkg : string) : M Remote json :=
  b <- PkgRepo_exists self pkg ;;
  if negb b then raise (PyException ("Package " ++ pkg ++ " does not exist!"))
  else
    logger_debug ("Getting package " ++ pkg ++ " from repo "
                  ++ name self ++ "...") ;;
    r <- requests_get (url self ++ "/packages/" ++ pkg ++ ".json") ;;
    data <- Response_json r ;;
    logger_debug ("Got package " ++ pkg ++ " from repo " ++ name self ++ ".") ;;
    ret data.

(** [PkgRepo.search] *)
Definition PkgRepo_search (self : PkgRepo) (term : string) : M Remote json :=
  logger_debug ("Searching repo " ++ name self ++ " for term " ++ term
                ++ "...") ;;
  r <- requests_get (url self ++ "/all.json") ;;
  data <- Response_json r ;;
  items <- lift (py_iter data) ;;
  results <- for_each items (fun pkgName results =>
      b <- lift (py_in term pkgName) ;;
      if b then ret (results ++ [pkgName])%list else ret results) [] ;;
  logger_debug ("Found " ++ str_of_nat (List.length results)
                ++ " results for term " ++ term ++ " in repo "
                ++ name self ++ ".") ;;
  ret (JArr results).

(** [PkgRepo.list] *)
Definition PkgRepo_list (self : PkgRepo) : M Remote json :=
  logger_debug ("Listing all packages in repo " ++ name self ++ "...") ;;
  r <- requests_get (url self ++ "/all.json") ;;
  data <- Response_json r ;;
  n <- lift (py_len data) ;;
  logger_debug ("Found " ++ str_of_nat n ++ " packages in repo "
                ++ name self ++ ".") ;;
  ret data.

(** [RepoCollection.exists] *)
Definition RepoCollection_exists (self : RepoCollection) (pkg : string)
  : M Remote found :=
  repoNames <- for_each (dict_values (repos self)) (fun repo repoNames =>
      logger_info ("Checking if package exists in repo " ++ name repo
                   ++ "...") ;;
      b <- PkgRepo_exists repo pkg ;;
      if b then
        logger_info ("Package " ++ pkg ++ " exists in repo " ++ name repo
                     ++ ".") ;;
        ret (repoNames ++ [name repo])%list
      else ret repoNames) [] ;;
  if (List.length repoNames =? 0)%nat then
    logger_info ("Package " ++ pkg ++ " does not exist in any repos.") ;;
    ret PyFalse
  else ret (PyList repoNames).

(** [RepoCollection.get] *)
Definition RepoCollection_get (self : RepoCollection) (pkg repo : string)
  : M Remote json :=
  if negb (dict_contains repo (repos self)) then
    raise (PyException ("Repo " ++ repo ++ " does not exist!"))
  else
    r <- dict_getitem (repos self) repo ;;
    PkgRepo_get r pkg.

(** [RepoCollection.search] *)
Definition RepoCollection_search (self : RepoCollection) (term : string)
  : M Remote (dict json) :=
  for_each (dict_values (repos self)) (fun repo results =>
      logger_info ("Searching repo " ++ name repo ++ " for term " ++ term
                   ++ "...") ;;
      found_here <- PkgRepo_search repo term ;;
      ret (dict_setitem (name repo) found_here results)) [].

(** [RepoCollection.list] *)
Definition RepoCollection_list (self : RepoCollection) : M Remote (dict json) :=
  for_each (dict_values (repos self)) (fun repo results =>
      logger_info ("Fetching packages in repo " ++ name repo ++ "...") ;;
      catalog <- PkgRepo_list repo ;;
      ret (dict_setitem (name repo) catalog results)) [].

(** The collection the entry point fills from the [repos] entries of the
    configuration, each a name and a URL. *)
Definition load_repos (entries : list (string * string)) : RepoCollection :=
  fold_left (fun c e => RepoCollection_add c (mkPkgRepo (fst e) (snd e)))
            entries RepoCollection_init.

End Dash.

Arguments requests_get {Remote} serve target.
Arguments Response_json {Remote} r.
Arguments PkgRepo_exists {Remote} serve self pkg.
Arguments PkgRepo_get {Remote} serve self pkg.
Arguments PkgRepo_search {Remote} serve self term.
Arguments PkgRepo_list {Remote} serve self.
Arguments RepoCollection_exists {Remote} serve self pkg.
Arguments RepoCollection_get {Remote} serve self pkg repo.
Arguments RepoCollection_search {Remote} serve self term.
Arguments RepoCollection_list {Remote} serve self.

(* ================================================================== *)
(** ** Vocabulary of the specification *)

(** The two documents a repository serves. *)
Definition package_url (self : PkgRepo) (pkg : string) : string :=
  url self ++ "/packages/" ++ pkg ++ ".json".

Definition catalog_url (self : PkgRepo) : string :=
  url self ++ "/all.json".

(** The errors the specification names, as the code raises them. *)
Definition NotFound (pkg : string) : exn :=
  PyException ("Package " ++ pkg ++ " does not exist!").

Definition RepoNotFound (repo : string) : exn :=
  PyException ("Repo " ++ repo ++ " does not exist!").

(** Asking every repository of a list in turn: each repository with its
    answer, or the exception of the first one that raises; and the state
    the remote hosts are left in.  The events are dropped. *)
Fixpoint ask_each {St A} (ask : PkgRepo -> M St A) (rs : list PkgRepo)
  (st : St) : result (list (PkgRepo * A)) * St :=
  match rs with
  | [] => (Ok [], st)
  | r :: rs' =>
      match ask r st with
      | (Ok a, st1, _) =>
          match ask_each ask rs' st1 with
          | (Ok reports, st2) => (Ok ((r, a) :: reports), st2)
          | (Raise e, st2) => (Raise e, st2)
          end
      | (Raise e, st1, _) => (Raise e, st1)
      end
  end.

(** The names of the repositories that answered [True]. *)
Definition hits (reports : list (PkgRepo * bool)) : list string :=
  map (fun ra => name (fst ra)) (filter snd reports).

(** The mapping that holds each answer under the name of its repository. *)
Definition slots {A} (reports : list (PkgRepo * A)) : dict A :=
  fold_left (fun d ra => dict_setitem (name (fst ra)) (snd ra) d) reports [].

(** The package names of a catalog document: the strings of an array of
    strings, the keys of a mapping. *)
Fixpoint strings_of (items : list json) : option (list string) :=
  match items with
  | [] => Some []
  | JStr s :: items' =>
      match strings_of items' with
      | Some l => Some (s :: l)
      | None => None
      end
  | _ :: _ => None
  end.

Definition catalog_names (data : json) : option (list string) :=
  match data with
  | JArr items => strings_of items
  | JObj members => Some (dict_keys members)
  | _ => None
  end.

(** Every repository of the mapping sits under its own name. *)
Definition keyed_by_name (c : RepoCollection) : Prop :=
  Forall (fun kv => name (snd kv) = fst kv) (repos c).

(** The last repository of a sequence of registrations that has a name. *)
Definition last_named (k : string) (rs : list PkgRepo) : option PkgRepo :=
  find (fun r => String.eqb k (name r)) (rev rs).

(** A list of names without its repetitions, each name where it first
    occurs. *)
Fixpoint first_seen (l : list string) : list string :=
  match l with
  | [] => []
  | x :: l' => x :: filter (fun y => negb (String.eqb y x)) (first_seen l')
  end.

(** A name is not among those of a list. *)
Definition absent (ks : list string) (y : string) : bool :=
  negb (existsb (String.eqb y) ks).

(** A value without length, iteration or membership: [None], a boolean, a
    number.  [len], [for ... in] and [in] raise [TypeError] on it. *)
Definition scalar (x : json) : bool :=
  match x with
  | JNull | JBool _ | JNum _ => true
  | JStr _ | JArr _ | JObj _ => false
  end.

(** Whether the loop of [search] keeps an element it can test. *)
Definition keeps (term : string) (x : json) : bool :=
  match py_in term x with
  | Ok b => b
  | Raise _ => false
  end.

(** The repositories of a list that do get asked when each is asked in
    turn: all up to the first that raises, that one included. *)
Fixpoint asked {St A} (ask : PkgRepo -> M St A) (rs : list PkgRepo) (st : St)
  : list PkgRepo :=
  match rs with
  | [] => []
  | r :: rs' =>
      r :: match ask r st with
           | (Ok _, st1, _) => asked ask rs' st1
           | (Raise _, _, _) => []
           end
  end.

(** Hosts on which a GET changes nothing. *)
Definition unchanging {Remote}
  (serve : string -> Remote -> option Response * Remote) : Prop :=
  forall target rm, snd (serve target rm) = rm.

(** A computation that leaves the state as it found it. *)
Definition steady {St A} (m : M St A) : Prop :=
  forall st, state_of (m st) = st.

(** A repository whose catalog document is an array of names whenever it
    is fetched and parsed.  The fetch may fail and the body may fail to
    parse. *)
Definition names_when_served {Remote}
  (serve : string -> Remote -> option Response * Remote) (r : PkgRepo)
  : Prop :=
  forall rm resp rm' data,
    serve (catalog_url r) rm = (Some resp, rm') ->
    body_json resp = Some data ->
    exists names, data = JArr (map JStr names).

(** The repository a configuration entry describes. *)
Definition repo_of_entry (e : string * string) : PkgRepo :=
  mkPkgRepo (fst e) (snd e).

(** The last entry of a configuration that carries a name. *)
Definition last_entry (k : string) (entries : list (string * string))
  : option (string * string) :=
  find (fun e => String.eqb k (fst e)) (rev entries).

(* ------------------------------------------------------------------ *)
(** *** Scenarios *)

(** Hosts that never change: a table from URL to response; a URL that is
    not in the table is unreachable. *)
Definition static (table : dict Response)
  : string -> unit -> option Response * unit :=
  fun target st => (dict_get target table, st).

Definition repoA : PkgRepo := mkPkgRepo "A" "http://a/x".
Definition repoB : PkgRepo := mkPkgRepo "B" "http://b/y".
Definition repoC : PkgRepo := mkPkgRepo "C" "http://c/z".

Definition collectionAB : RepoCollection :=
  RepoCollection_add (RepoCollection_add RepoCollection_init repoA) repoB.

Definition collectionABC : RepoCollection :=
  RepoCollection_add collectionAB repoC.

Definition foo_metadata : json := JObj [("name", JStr "foo")].

(** [foo] is in A only; the catalog of A is an array, that of B a
    mapping. *)
Definition foo_in_A : dict Response :=
  [("http://a/x/packages/foo.json", mkResponse 200 (Some foo_metadata));
   ("http://b/y/packages/foo.json", mkResponse 404 None);
   ("http://a/x/all.json",
    mkResponse 200 (Some (JArr [JStr "foo"; JStr "foobar"; JStr "baz"])));
   ("http://b/y/all.json",
    mkResponse 200 (Some (JObj [("foo", JNull); ("qux", JNull)])))].

(** [foo] is in A and in B. *)
Definition foo_in_A_and_B : dict Response :=
  [("http://a/x/packages/foo.json", mkResponse 200 (Some foo_metadata));
   ("http://b/y/packages/foo.json", mkResponse 200 (Some foo_metadata))].

(** The host of A answers every package lookup with an internal error. *)
Definition A_broken : dict Response :=
  [("http://a/x/packages/foo.json", mkResponse 500 None)].

(** Three repositories; the host of B cannot be reached. *)
Definition B_unreachable : dict Response :=
  [("http://a/x/all.json",
    mkResponse 200 (Some (JArr [JStr "foo"; JStr "foobar"; JStr "baz"])));
   ("http://c/z/all.json", mkResponse 200 (Some (JArr [JStr "food"])))].


(** The catalog of A holds a number among its names; that of B is not a
    collection at all. *)
Definition odd_catalogs : dict Response :=
  [("http://a/x/all.json",
    mkResponse 200 (Some (JArr [JStr "foo"; JNum "7"; JStr "foobar"])));
   ("http://b/y/all.json", mkResponse 200 (Some (JNum "42")))].

(** [foo] is not in A, and the host of B cannot be reached. *)
Definition foo_absent_B_unreachable : dict Response :=
  [("http://a/x/packages/foo.json", mkResponse 404 None)].

(** A string with a character outside ASCII: [a], then e with an acute
    accent, which UTF-8 encodes in the two bytes 195 and 169. *)
Definition e_acute : string := String "195"%char (String "169"%char "").

Definition a_e_acute : string := String "a"%char e_acute.

(** The catalog of A is one JSON string. *)
Definition string_catalog : dict Response :=
  [("http://a/x/all.json", mkResponse 200 (Some (JStr a_e_acute)))].

(** A configuration that lists the name A twice. *)
Definition config_with_repeat : list (string * string) :=
  [("A", "http://a/x"); ("B", "http://b/y"); ("A", "http://mirror/x")].

(* ================================================================== *)
(** ** Facts about strings and dictionaries *)

Section StringFacts.

Lemma length_append (a b : string) :
  String.length (a ++ b) = String.length a + String.length b.
Proof.
  induction a as [|ch a IH]; simpl; [reflexivity | now rewrite IH].
Qed.

Lemma prefix_iff (t s : string) :
  String.prefix t s = true <-> exists b, s = t ++ b.
Proof.
  revert s; induction t as [|ch t IH]; intros s.
  - destruct s; simpl; split; eauto.
  - destruct s as [|ch' s]; simpl.
    + split; [discriminate | intros [b Hb]; discriminate].
    + destruct (ascii_dec ch ch') as [->|Hne].
      * rewrite IH. split; intros [b Hb]; exists b; congruence.
      * split; [discriminate | intros [b Hb]; congruence].
Qed.

Lemma prefix_empty (s : string) : String.prefix "" s = true.
Proof. destruct s; reflexivity. Qed.

Lemma str_in_nil (t : string) : str_in t "" = String.prefix t "" || false.
Proof. reflexivity. Qed.

Lemma str_in_cons (t : string) (ch : ascii) (s : string) :
  str_in t (String ch s) = String.prefix t (String ch s) || str_in t s.
Proof. reflexivity. Qed.

(** [str_in] is the unanchored, case-sensitive substring test. *)
Lemma str_in_iff (t s : string) :
  str_in t s = true <-> exists a b, s = a ++ t ++ b.
Proof.
  induction s as [|ch s IH].
  - rewrite str_in_nil, orb_true_iff, prefix_iff. split.
    + intros [[b Hb]|H]; [exists "", b; exact Hb | discriminate].
    + intros [a [b H]]. left. destruct a; [|discriminate].
      exists b; exact H.
  - rewrite str_in_cons, orb_true_iff, prefix_iff, IH. split.
    + intros [[b Hb]|[a [b H]]].
      * exists "", b; exact Hb.
      * exists (String ch a), b. simpl. now rewrite H.
    + intros [a [b H]]. destruct a as [|ch' a]; simpl in H.
      * left; exists b; exact H.
      * right; exists a, b. congruence.
Qed.

Lemma str_in_empty (s : string) : str_in "" s = true.
Proof. destruct s; reflexivity. Qed.

Lemma join_cons2 (sep x y : string) (l : list string) :
  join sep (x :: y :: l) = x ++ sep ++ join sep (y :: l).
Proof. reflexivity. Qed.

Lemma PkgRepo_str_length (r : PkgRepo) :
  String.length (PkgRepo_str r)
  = 16 + String.length (name r) + String.length (url r).
Proof.
  unfold PkgRepo_str. rewrite !length_append.
  change (String.length "Package Repo ") with 13.
  change (String.length " @ ") with 3. lia.
Qed.

(** Joining the descriptions gives a longer string than joining the
    names. *)
Lemma join_names_shorter (sep : string) (rs : list PkgRepo) :
  rs <> [] ->
  String.length (join sep (map name rs))
  < String.length (join sep (map PkgRepo_str rs)).
Proof.
  induction rs as [|r rs IH]; [congruence | intros _].
  destruct rs as [|r' rs].
  - change (String.length (name r) < String.length (PkgRepo_str r)).
    rewrite PkgRepo_str_length. lia.
  - change (map name (r :: r' :: rs)) with (name r :: name r' :: map name rs).
    change (map PkgRepo_str (r :: r' :: rs))
      with (PkgRepo_str r :: PkgRepo_str r' :: map PkgRepo_str rs).
    rewrite !join_cons2, !length_append, PkgRepo_str_length.
    assert (H : r' :: rs <> []) by discriminate.
    specialize (IH H).
    change (map name (r' :: rs)) with (name r' :: map name rs) in IH.
    change (map PkgRepo_str (r' :: rs))
      with (PkgRepo_str r' :: map PkgRepo_str rs) in IH.
    lia.
Qed.

End StringFacts.

Section DictFacts.

Context {V : Type}.
Implicit Types (d : dict V) (k : string) (v : V).

Lemma dict_get_setitem_eq d k v : dict_get k (dict_setitem k v d) = Some v.
Proof.
  induction d as [|[k' v'] d IH]; simpl.
  - now rewrite String.eqb_refl.
  - destruct (String.eqb k k') eqn:E; simpl.
    + now rewrite String.eqb_refl.
    + now rewrite E.
Qed.

Lemma dict_get_setitem_neq d k k' v :
  k' <> k -> dict_get k' (dict_setitem k v d) = dict_get k' d.
Proof.
  intros Hne. apply String.eqb_neq in Hne.
  induction d as [|[k0 v0] d IH]; simpl.
  - now rewrite Hne.
  - destruct (String.eqb k k0) eqn:E; simpl.
    + apply String.eqb_eq in E; subst k0. now rewrite Hne.
    + now rewrite IH.
Qed.

Lemma dict_contains_keys d k :
  dict_contains k d = existsb (String.eqb k) (dict_keys d).
Proof.
  unfold dict_contains.
  induction d as [|[k' v'] d IH]; simpl; [reflexivity|].
  destruct (String.eqb k k'); [reflexivity | exact IH].
Qed.

Lemma dict_get_None d k : dict_get k d = None <-> ~ In k (dict_keys d).
Proof.
  induction d as [|[k' v'] d IH]; simpl.
  - tauto.
  - destruct (String.eqb_spec k k') as [->|Hne].
    + split; [discriminate | intros H; exfalso; apply H; now left].
    + rewrite IH. split; [intros H [E|HIn]; congruence | tauto].
Qed.

Lemma dict_keys_setitem d k v :
  dict_keys (dict_setitem k v d)
  = if dict_contains k d then dict_keys d else (dict_keys d ++ [k])%list.
Proof.
  unfold dict_contains.
  induction d as [|[k' v'] d IH]; simpl; [reflexivity|].
  destruct (String.eqb_spec k k') as [->|Hne]; simpl; [reflexivity|].
  rewrite IH. now destruct (dict_get k d).
Qed.

Lemma dict_setitem_Forall (P : string * V -> Prop) d k v :
  P (k, v) -> Forall P d -> Forall P (dict_setitem k v d).
Proof.
  intros Hkv. induction 1 as [|[k' v'] d Hx Hd IH]; simpl.
  - constructor; [exact Hkv | constructor].
  - destruct (String.eqb k k'); constructor; assumption.
Qed.

Lemma dict_contains_false d k :
  dict_contains k d = false -> ~ In k (dict_keys d).
Proof.
  unfold dict_contains. intros H. apply dict_get_None.
  destruct (dict_get k d); [discriminate | reflexivity].
Qed.

Lemma dict_setitem_NoDup d k v :
  NoDup (dict_keys d) -> NoDup (dict_keys (dict_setitem k v d)).
Proof.
  intros Hnd. rewrite dict_keys_setitem.
  destruct (dict_contains k d) eqn:E; [exact Hnd|].
  apply dict_contains_false in E.
  apply NoDup_app; repeat split.
  - exact Hnd.
  - constructor; [intros [] | constructor].
  - intros x Hx [<-|[]]. exact (E Hx).
Qed.

End DictFacts.

Section Registry.

Implicit Types (c : RepoCollection) (rs : list PkgRepo) (k : string).

Lemma add_keyed c repo :
  keyed_by_name c -> keyed_by_name (RepoCollection_add c repo).
Proof.
  unfold keyed_by_name; simpl. intros H.
  now apply dict_setitem_Forall.
Qed.

Lemma adds_keyed rs c :
  keyed_by_name c -> keyed_by_name (fold_left RepoCollection_add rs c).
Proof.
  revert c; induction rs as [|r rs IH]; intros c H; simpl; [exact H|].
  apply IH, add_keyed, H.
Qed.

Lemma adds_unique rs c :
  NoDup (dict_keys (repos c)) ->
  NoDup (dict_keys (repos (fold_left RepoCollection_add rs c))).
Proof.
  revert c; induction rs as [|r rs IH]; intros c H; simpl; [exact H|].
  apply IH. simpl. now apply dict_setitem_NoDup.
Qed.

Lemma find_snoc {A} (f : A -> bool) (l : list A) (x : A) :
  find f (l ++ [x]) =
  match find f l with
  | Some y => Some y
  | None => if f x then Some x else None
  end.
Proof.
  induction l as [|y l IH]; simpl; [reflexivity|].
  destruct (f y); [reflexivity | exact IH].
Qed.

Lemma adds_lookup rs c k :
  dict_get k (repos (fold_left RepoCollection_add rs c)) =
  match last_named k rs with
  | Some r => Some r
  | None => dict_get k (repos c)
  end.
Proof.
  unfold last_named.
  revert c; induction rs as [|r rs IH]; intros c; simpl; [reflexivity|].
  rewrite IH, find_snoc.
  destruct (find _ (rev rs)); [reflexivity|].
  simpl. destruct (String.eqb_spec k (name r)) as [->|Hne].
  - apply dict_get_setitem_eq.
  - now apply dict_get_setitem_neq.
Qed.

Lemma keyed_keys c :
  keyed_by_name c -> dict_keys (repos c) = map name (dict_values (repos c)).
Proof.
  unfold keyed_by_name, dict_keys, dict_values.
  induction 1 as [|[k r] d Hx Hd IH]; simpl; [reflexivity|].
  simpl in Hx. now rewrite IH, Hx.
Qed.

Lemma filter_filter {A} (f g : A -> bool) (l : list A) :
  filter f (filter g l) = filter (fun x => g x && f x) l.
Proof.
  induction l as [|x l IH]; simpl; [reflexivity|].
  destruct (g x); simpl; [destruct (f x)|]; now rewrite IH.
Qed.

Lemma adds_keys rs c :
  dict_keys (repos (fold_left RepoCollection_add rs c)) =
  (dict_keys (repos c)
   ++ filter (absent (dict_keys (repos c))) (first_seen (map name rs)))%list.
Proof.
  revert c; induction rs as [|r rs IH]; intros c; simpl.
  - now rewrite app_nil_r.
  - rewrite IH. simpl repos. rewrite dict_keys_setitem, dict_contains_keys.
    assert (Ha : absent (dict_keys (repos c)) (name r)
                 = negb (existsb (String.eqb (name r)) (dict_keys (repos c))))
      by reflexivity.
    rewrite Ha.
    destruct (existsb (String.eqb (name r)) (dict_keys (repos c))) eqn:E;
      simpl negb; cbv iota.
    + f_equal. rewrite filter_filter. apply filter_ext_in.
      intros y _. unfold absent.
      destruct (String.eqb_spec y (name r)) as [->|Hne];
        [now rewrite E | reflexivity].
    + rewrite <- app_assoc. simpl app. do 2 f_equal.
      rewrite filter_filter. apply filter_ext_in.
      intros y _. unfold absent. rewrite existsb_app; simpl.
      rewrite orb_false_r, negb_orb. apply andb_comm.
Qed.

End Registry.

Section RegistryClaims.

Implicit Types (c : RepoCollection) (rs : list PkgRepo) (k : string).

Lemma loaded_keys rs :
  dict_keys (repos (fold_left RepoCollection_add rs RepoCollection_init))
  = first_seen (map name rs).
Proof.
  rewrite adds_keys. simpl.
  rewrite (filter_ext (absent []) (fun _ => true)) by reflexivity.
  apply filter_true.
Qed.

Lemma first_seen_NoDup (l : list string) : NoDup l -> first_seen l = l.
Proof.
  induction 1 as [|x l Hx Hl IH]; simpl; [reflexivity|].
  rewrite IH. f_equal.
  rewrite (filter_ext_in _ (fun _ => true)); [apply filter_true|].
  intros y Hy. destruct (String.eqb_spec y x); [congruence | reflexivity].
Qed.

Lemma str_is_keys c :
  RepoCollection_str c = "Repo Collection: " ++ join ", " (dict_keys (repos c)).
Proof.
  unfold RepoCollection_str. now rewrite map_id.
Qed.

Lemma str_is_not_descriptions c :
  keyed_by_name c -> repos c <> [] ->
  RepoCollection_str c
  <> "Repo Collection: " ++ join ", " (map PkgRepo_str (dict_values (repos c))).
Proof.
  intros Hkeyed Hne Heq. rewrite str_is_keys, (keyed_keys c Hkeyed) in Heq.
  apply (f_equal String.length) in Heq. rewrite !length_append in Heq.
  assert (Hvals : dict_values (repos c) <> []).
  { unfold dict_values. destruct (repos c); [congruence | discriminate]. }
  pose proof (join_names_shorter ", " _ Hvals). lia.
Qed.

(** C8.  Registering repositories with [add], any number of times, keeps
    every repository of the mapping under a key equal to its own name, and
    keeps the keys distinct.  After the registrations a name leads to the
    last repository registered under it (last write wins) and a name none
    of them carries leads to what it led to before; a single [add] changes
    the entry of the added name only. *)
Theorem RepoCollection_add_last_write_wins c rs :
  keyed_by_name c ->
  keyed_by_name (fold_left RepoCollection_add rs c)
  /\ (NoDup (dict_keys (repos c)) ->
      NoDup (dict_keys (repos (fold_left RepoCollection_add rs c))))
  /\ (forall k,
        dict_get k (repos (fold_left RepoCollection_add rs c)) =
        match last_named k rs with
        | Some r => Some r
        | None => dict_get k (repos c)
        end)
  /\ (forall repo,
        dict_get (name repo) (repos (RepoCollection_add c repo)) = Some repo
        /\ (forall k, k <> name repo ->
              dict_get k (repos (RepoCollection_add c repo))
              = dict_get k (repos c))).
Proof.
  intros Hkeyed. split; [|split; [|split]].
  - now apply adds_keyed.
  - apply adds_unique.
  - intros k. apply adds_lookup.
  - intros repo. split.
    + apply dict_get_setitem_eq.
    + intros k Hk. now apply dict_get_setitem_neq.
Qed.

Lemma RepoCollection_add_last_write_wins_witness :
  keyed_by_name RepoCollection_init
  /\ dict_get "A"
       (repos (fold_left RepoCollection_add
                 [repoA; repoB; mkPkgRepo "A" "http://mirror/x"]
                 RepoCollection_init))
     = Some (mkPkgRepo "A" "http://mirror/x").
Proof.
  split.
  - constructor.
  - apply (RepoCollection_add_last_write_wins RepoCollection_init
             [repoA; repoB; mkPkgRepo "A" "http://mirror/x"]).
    constructor.
Defined.

(** C10.  The string of a collection is "Repo Collection: " followed by
    the keys of its mapping joined by ", ".  For a collection filled by
    registrations these keys are the registered names, each where it was
    first registered.  For a non-empty collection that keeps every
    repository under its name, the string differs from the one that would
    join the repositories' own descriptions "Package Repo <name> @ <url>". *)
Theorem RepoCollection_str_bare_names c :
  RepoCollection_str c = "Repo Collection: " ++ join ", " (dict_keys (repos c))
  /\ (forall rs,
        c = fold_left RepoCollection_add rs RepoCollection_init ->
        dict_keys (repos c) = first_seen (map name rs)
        /\ (NoDup (map name rs) -> dict_keys (repos c) = map name rs))
  /\ (keyed_by_name c -> repos c <> [] ->
      RepoCollection_str c
      <> "Repo Collection: "
         ++ join ", " (map PkgRepo_str (dict_values (repos c)))).
Proof.
  split; [|split].
  - apply str_is_keys.
  - intros rs ->. split.
    + apply loaded_keys.
    + intros Hnd. now rewrite loaded_keys, first_seen_NoDup.
  - apply str_is_not_descriptions.
Qed.

End RegistryClaims.

(* ================================================================== *)
(** ** One repository *)

Section OneRepository.

Variable Remote : Type.
Variable serve : string -> Remote -> option Response * Remote.
Implicit Types (self : PkgRepo) (pkg term : string) (rm : Remote).

Ltac unfold_run :=
  unfold logger_debug, logger_info, logger_critical, exit, requests_get,
    Response_json, dict_getitem, bind, ret, raise, lift, emit.

(** The run of [exists], case by case on what the host answers. *)
Lemma PkgRepo_exists_run self pkg rm :
  PkgRepo_exists serve self pkg rm =
  let checking := Log DEBUG ("Checking if package " ++ pkg
                             ++ " exists in repo " ++ name self ++ "...") in
  let fetch := Request (package_url self pkg) in
  match serve (package_url self pkg) rm with
  | (Some r, rm') =>
      if (status_code r =? 404)%Z then
        (Ok false, rm',
         [checking; fetch;
          Log DEBUG ("Package " ++ pkg ++ " not found in repo "
                     ++ name self ++ ".")])
      else (Ok true, rm', [checking; fetch])
  | (None, rm') => (Raise RequestException, rm', [checking; fetch])
  end.
Proof.
  unfold PkgRepo_exists, package_url. unfold_run. cbv beta iota.
  destruct (serve _ rm) as [[r|] rm']; [|reflexivity].
  destruct (status_code r =? 404)%Z; reflexivity.
Qed.

(** The run of [get], from the run of its call to [exists]. *)
Lemma PkgRepo_get_run self pkg rm :
  PkgRepo_get serve self pkg rm =
  let getting := Log DEBUG ("Getting package " ++ pkg ++ " from repo "
                            ++ name self ++ "...") in
  let fetch := Request (package_url self pkg) in
  match PkgRepo_exists serve self pkg rm with
  | (Ok true, rm1, t1) =>
      match serve (package_url self pkg) rm1 with
      | (Some r, rm2) =>
          match body_json r with
          | Some data =>
              (Ok data, rm2,
               t1 ++ [getting; fetch;
                      Log DEBUG ("Got package " ++ pkg ++ " from repo "
                                 ++ name self ++ ".")])
          | None => (Raise JSONDecodeError, rm2, t1 ++ [getting; fetch])
          end
      | (None, rm2) => (Raise RequestException, rm2, t1 ++ [getting; fetch])
      end
  | (Ok false, rm1, t1) => (Raise (NotFound pkg), rm1, t1 ++ [])
  | (Raise e, rm1, t1) => (Raise e, rm1, t1)
  end%list.
Proof.
  unfold PkgRepo_get, package_url, NotFound.
  unfold bind at 1.
  destruct (PkgRepo_exists serve self pkg rm) as [[[[|]|e] rm1] t1];
    simpl; try reflexivity.
  unfold_run. cbv beta iota.
  destruct (serve _ rm1) as [[r|] rm2]; [|reflexivity].
  destruct (body_json r); reflexivity.
Qed.

Lemma PkgRepo_exists_requests self pkg rm :
  requests (trace_of (PkgRepo_exists serve self pkg rm))
  = [package_url self pkg].
Proof.
  rewrite PkgRepo_exists_run.
  destruct (serve _ rm) as [[r|] rm']; [|reflexivity].
  destruct (status_code r =? 404)%Z; reflexivity.
Qed.

Lemma requests_app (t1 t2 : list event) :
  requests (t1 ++ t2) = (requests t1 ++ requests t2)%list.
Proof.
  induction t1 as [|[u|l m] t1 IH]; simpl; [reflexivity | |]; now rewrite IH.
Qed.

(** What [get] can raise. *)
Lemma PkgRepo_get_raises self pkg rm e :
  value_of (PkgRepo_get serve self pkg rm) = Raise e ->
  e = RequestException \/ e = JSONDecodeError \/ e = NotFound pkg.
Proof.
  rewrite PkgRepo_get_run, PkgRepo_exists_run. cbv zeta.
  destruct (serve _ rm) as [[r|] rm1].
  - destruct (status_code r =? 404)%Z.
    + unfold value_of; simpl. intros [= <-]. auto.
    + destruct (serve _ rm1) as [[r2|] rm2].
      * destruct (body_json r2); unfold value_of; simpl;
          [discriminate | intros [= <-]; auto].
      * unfold value_of; simpl. intros [= <-]. auto.
  - unfold value_of; simpl. intros [= <-]. auto.
Qed.

(** C5, as the code has it.  [exists] returns [False] exactly when the
    host answers with status 404, and [True] exactly when it answers with
    any other status, whatever the body: a 500 or a malformed body is
    reported as present, neither as absent nor as an error.  It raises
    exactly when no response is obtained, and then the transport error is
    what reaches the caller. *)
Theorem PkgRepo_exists_false_only_on_404 self pkg rm :
  let answer := fst (serve (package_url self pkg) rm) in
  let v := value_of (PkgRepo_exists serve self pkg rm) in
  (v = Ok false <-> exists r, answer = Some r /\ status_code r = 404%Z)
  /\ (v = Ok true <-> exists r, answer = Some r /\ status_code r <> 404%Z)
  /\ (forall e, v = Raise e <-> e = RequestException /\ answer = None).
Proof.
  cbv zeta. rewrite PkgRepo_exists_run. cbv zeta.
  destruct (serve _ rm) as [[r|] rm']; simpl fst.
  - destruct (Z.eqb_spec (status_code r) 404) as [E|E];
      unfold value_of; simpl; (split; [|split]).
    + split; [intros _; exists r; now split | reflexivity].
    + split; [discriminate | intros [r' [[= <-] H]]; congruence].
    + intros e; split; [discriminate | intros [_ H]; discriminate].
    + split; [discriminate | intros [r' [[= <-] H]]; congruence].
    + split; [intros _; exists r; now split | reflexivity].
    + intros e; split; [discriminate | intros [_ H]; discriminate].
  - unfold value_of; simpl; (split; [|split]).
    + split; [discriminate | intros [r' [H _]]; discriminate].
    + split; [discriminate | intros [r' [H _]]; discriminate].
    + intros e; split; [intros [= <-]; now split | intros [-> _]; reflexivity].
Qed.

(** C7.  [get] raises the not-found error exactly when its call to
    [exists] returns [False].  When that call returns [True], [get] sends
    a second request for the same per-package document and returns what the
    body parses to; it raises the decoding error when the body is not
    well-formed, and the transport error when the second request obtains no
    response.  When [exists] raises, [get] raises the same. *)
Theorem PkgRepo_get_after_exists self pkg rm :
  let first := PkgRepo_exists serve self pkg rm in
  let run := PkgRepo_get serve self pkg rm in
  (value_of run = Raise (NotFound pkg) <-> value_of first = Ok false)
  /\ (value_of first = Ok true ->
      requests (trace_of run) = [package_url self pkg; package_url self pkg]
      /\ value_of run =
         match fst (serve (package_url self pkg) (state_of first)) with
         | Some r =>
             match body_json r with
             | Some data => Ok data
             | None => Raise JSONDecodeError
             end
         | None => Raise RequestException
         end)
  /\ (forall e, value_of first = Raise e -> value_of run = Raise e).
Proof.
  cbv zeta. rewrite PkgRepo_get_run. cbv zeta.
  pose proof (PkgRepo_exists_requests self pkg rm) as Hreq.
  destruct (PkgRepo_exists serve self pkg rm) as [[[[|]|e] rm1] t1] eqn:Hfirst;
    unfold value_of, state_of, trace_of in *; simpl in *.
  - split; [|split]; [| |discriminate].
    + destruct (serve _ rm1) as [[r|] rm2]; [destruct (body_json r)|];
        simpl; split; discriminate.
    + intros _.
      destruct (serve _ rm1) as [[r|] rm2]; simpl;
        [destruct (body_json r)|];
        simpl; rewrite requests_app, Hreq; split; reflexivity.
  - split; [|split]; [tauto | discriminate | discriminate].
  - split; [|split]; [| discriminate | intros e' [= <-]; reflexivity].
    split; [|discriminate].
    intros [= ->]. exfalso.
    rewrite PkgRepo_exists_run in Hfirst. cbv zeta in Hfirst.
    unfold NotFound in Hfirst.
    destruct (serve _ rm) as [[r|] rm'];
      [destruct (status_code r =? 404)%Z|]; discriminate.
Qed.

End OneRepository.

(* ================================================================== *)
(** ** Searching one repository *)

Section Search.

Variable Remote : Type.
Variable serve : string -> Remote -> option Response * Remote.
Implicit Types (self : PkgRepo) (term : string) (rm : Remote).

Lemma strings_of_map (items : list json) (names : list string) :
  strings_of items = Some names -> items = map JStr names.
Proof.
  revert names; induction items as [|x items IH]; intros names; simpl.
  - now intros [= <-].
  - destruct x; try discriminate.
    destruct (strings_of items) as [l|]; [|discriminate].
    intros [= <-]. simpl. now rewrite (IH l).
Qed.

(** Iterating a catalog visits its package names, in order. *)
Lemma catalog_iter (data : json) (names : list string) :
  catalog_names data = Some names -> py_iter data = Ok (map JStr names).
Proof.
  destruct data; simpl; try discriminate.
  - intros H. now rewrite (strings_of_map _ _ H).
  - now intros [= <-].
Qed.

(** The loop of [search] over names keeps those that contain the term,
    after what was collected before. *)
Lemma search_loop term (names : list string) (acc : list json) rm :
  for_each (map JStr names)
    (fun pkgName results =>
       b <- lift (py_in term pkgName) ;;
       if b then ret (results ++ [pkgName])%list else ret results) acc rm
  = (Ok (acc ++ map JStr (filter (str_in term) names))%list, rm, []).
Proof.
  revert acc; induction names as [|n names IH]; intros acc; simpl.
  - unfold ret. now rewrite app_nil_r.
  - unfold bind at 1. unfold bind at 1. unfold lift at 1.
    destruct (str_in term n); unfold ret at 1; rewrite IH; simpl.
    + now rewrite <- app_assoc.
    + reflexivity.
Qed.

Lemma PkgRepo_search_run self term rm r rm' data names :
  serve (catalog_url self) rm = (Some r, rm') ->
  body_json r = Some data ->
  catalog_names data = Some names ->
  let selected := map JStr (filter (str_in term) names) in
  PkgRepo_search serve self term rm
  = (Ok (JArr selected), rm',
     [Log DEBUG ("Searching repo " ++ name self ++ " for term " ++ term
                 ++ "...");
      Request (catalog_url self);
      Log DEBUG ("Found " ++ str_of_nat (List.length selected)
                 ++ " results for term " ++ term ++ " in repo "
                 ++ name self ++ ".")]).
Proof.
  intros Hserve Hbody Hnames. apply catalog_iter in Hnames.
  unfold PkgRepo_search, catalog_url in *.
  unfold logger_debug, requests_get, Response_json.
  unfold bind at 1. unfold emit at 1. unfold bind at 1.
  rewrite Hserve, Hbody. unfold bind at 1. unfold ret at 1.
  unfold bind at 1. rewrite Hnames. unfold lift at 1.
  unfold bind at 1. rewrite search_loop.
  reflexivity.
Qed.

Lemma PkgRepo_list_run self rm r rm' data n :
  serve (catalog_url self) rm = (Some r, rm') ->
  body_json r = Some data ->
  py_len data = Ok n ->
  value_of (PkgRepo_list serve self rm) = Ok data.
Proof.
  intros Hserve Hbody Hlen.
  unfold PkgRepo_list, catalog_url in *.
  unfold logger_debug, requests_get, Response_json.
  unfold bind at 1. unfold emit at 1. unfold bind at 1.
  rewrite Hserve, Hbody. unfold bind at 1. unfold ret at 1.
  unfold bind at 1. rewrite Hlen. reflexivity.
Qed.

Lemma filter_all_names (names : list string) :
  filter (str_in "") names = names.
Proof.
  rewrite (filter_ext _ (fun _ => true)) by apply str_in_empty.
  apply filter_true.
Qed.

(** C3, as the code has it.  When the catalog document is an array of
    names or a mapping keyed by name, [search] returns the names of the
    catalog that contain the term somewhere, in catalog order, and for the
    empty term all of them.  [list] returns the document itself: for an
    array catalog that is what [search] returns for the empty term; for a
    mapping catalog it is the mapping, of which [search] returns the
    keys. *)
Theorem PkgRepo_search_filters_catalog self term rm r rm' data names :
  serve (catalog_url self) rm = (Some r, rm') ->
  body_json r = Some data ->
  catalog_names data = Some names ->
  let selected := filter (str_in term) names in
  value_of (PkgRepo_search serve self term rm) = Ok (JArr (map JStr selected))
  /\ (forall n, In n selected
                <-> In n names /\ exists a b, n = a ++ term ++ b)
  /\ value_of (PkgRepo_search serve self "" rm) = Ok (JArr (map JStr names))
  /\ value_of (PkgRepo_list serve self rm) = Ok data
  /\ (forall items, data = JArr items ->
        value_of (PkgRepo_search serve self "" rm)
        = value_of (PkgRepo_list serve self rm)).
Proof.
  intros Hserve Hbody Hnames selected.
  assert (Hlist : value_of (PkgRepo_list serve self rm) = Ok data).
  { destruct data; try discriminate.
    - eapply PkgRepo_list_run; eauto. reflexivity.
    - eapply PkgRepo_list_run; eauto. reflexivity. }
  assert (Hall : value_of (PkgRepo_search serve self "" rm)
                 = Ok (JArr (map JStr names))).
  { rewrite (PkgRepo_search_run self "" rm r rm' data names) by assumption.
    now rewrite filter_all_names. }
  split; [|split; [|split; [|split]]].
  - now rewrite (PkgRepo_search_run self term rm r rm' data names).
  - intros n. unfold selected. now rewrite filter_In, str_in_iff.
  - exact Hall.
  - exact Hlist.
  - intros items ->. rewrite Hall, Hlist. simpl in Hnames.
    now rewrite (strings_of_map _ _ Hnames).
Qed.

End Search.

(* ================================================================== *)
(** ** The collection *)

Lemma bind_value_state {St A B} (m : M St A) (f : A -> M St B) (st : St) :
  (value_of (bind m f st), state_of (bind m f st)) =
  match m st with
  | (Ok a, st1, _) => (value_of (f a st1), state_of (f a st1))
  | (Raise e, st1, _) => (Raise e, st1)
  end.
Proof.
  unfold bind. destruct (m st) as [[[a|e] st1] t1]; [|reflexivity].
  now destruct (f a st1) as [[r st2] t2].
Qed.

Section Loops.

Context {St A S : Type}.
Variable ask : PkgRepo -> M St A.
Variable upd : PkgRepo -> A -> S -> S.
Variable body : PkgRepo -> S -> M St S.

(** One turn of the loop asks the repository once and folds its answer
    into the loop state; an exception of the repository leaves the loop. *)
Hypothesis body_asks : forall r s st,
  (value_of (body r s st), state_of (body r s st)) =
  match ask r st with
  | (Ok a, st1, _) => (Ok (upd r a s), st1)
  | (Raise e, st1, _) => (Raise e, st1)
  end.

Lemma for_each_asks (rs : list PkgRepo) (s : S) (st : St) :
  (value_of (for_each rs body s st), state_of (for_each rs body s st)) =
  match ask_each ask rs st with
  | (Ok reports, st') =>
      (Ok (fold_left (fun s ra => upd (fst ra) (snd ra) s) reports s), st')
  | (Raise e, st') => (Raise e, st')
  end.
Proof.
  revert s st; induction rs as [|r rs IH]; intros s st; simpl.
  - reflexivity.
  - unfold bind. specialize (body_asks r s st).
    destruct (body r s st) as [[v st1] t1].
    destruct (ask r st) as [[[a|e] st1'] ta];
      unfold value_of, state_of in body_asks; simpl in body_asks;
      injection body_asks as -> ->; [|reflexivity].
    specialize (IH (upd r a s) st1').
    destruct (for_each rs body (upd r a s) st1') as [[v2 st2] t2].
    unfold value_of, state_of in *; simpl in *. rewrite IH.
    destruct (ask_each ask rs st1') as [[reports|e] st3]; reflexivity.
Qed.

End Loops.

Section AskEach.

Context {St A : Type}.
Variable ask : PkgRepo -> M St A.

(** When nobody raises, everybody was asked, in order. *)
Lemma ask_each_all (rs : list PkgRepo) (st st' : St)
  (reports : list (PkgRepo * A)) :
  ask_each ask rs st = (Ok reports, st') -> map fst reports = rs.
Proof.
  revert st st' reports; induction rs as [|r rs IH]; intros st st' reports;
    simpl.
  - now intros [= <- _].
  - destruct (ask r st) as [[[a|e] st1] t]; [|discriminate].
    destruct (ask_each ask rs st1) as [[l|e] st2] eqn:E; [|discriminate].
    intros [= <- _]. simpl. f_equal. eapply IH, E.
Qed.

(** When somebody raises, it is the first who does: those before answered,
    those after were not asked. *)
Lemma ask_each_first_raise (rs : list PkgRepo) (st st' : St) (e : exn) :
  ask_each ask rs st = (Raise e, st') ->
  exists before r after reports st1,
    rs = (before ++ r :: after)%list
    /\ ask_each ask before st = (Ok reports, st1)
    /\ value_of (ask r st1) = Raise e
    /\ state_of (ask r st1) = st'.
Proof.
  revert st; induction rs as [|r rs IH]; intros st; simpl; [discriminate|].
  destruct (ask r st) as [[[a|e0] st1] t] eqn:Er.
  - destruct (ask_each ask rs st1) as [[l|e1] st2] eqn:E; [discriminate|].
    intros [= -> ->].
    destruct (IH st1 E) as (before & r' & after & reports & st3 & -> & Hb & Hr).
    exists (r :: before), r', after, ((r, a) :: reports), st3.
    split; [reflexivity|]. split; [|exact Hr].
    simpl. now rewrite Er, Hb.
  - intros [= -> ->]. exists [], r, rs, [], st.
    rewrite Er. repeat split.
Qed.

End AskEach.

Lemma dict_setitem_new {V} (d : dict V) (k : string) (v : V) :
  ~ In k (dict_keys d) -> dict_setitem k v d = (d ++ [(k, v)])%list.
Proof.
  induction d as [|[k' v'] d IH]; simpl; [reflexivity|].
  intros Hnot. destruct (String.eqb_spec k k') as [->|Hne].
  - exfalso. apply Hnot. now left.
  - rewrite IH; [reflexivity|]. intros HIn. apply Hnot. now right.
Qed.

(** With distinct names the mapping lists each repository's name with its
    answer, in the order asked. *)
Lemma slots_distinct {A} (reports : list (PkgRepo * A)) :
  NoDup (map (fun ra => name (fst ra)) reports) ->
  slots reports = map (fun ra => (name (fst ra), snd ra)) reports.
Proof.
  unfold slots.
  assert (H : forall acc : dict A,
    NoDup (dict_keys acc ++ map (fun ra => name (fst ra)) reports) ->
    fold_left (fun d ra => dict_setitem (name (fst ra)) (snd ra) d)
              reports acc
    = (acc ++ map (fun ra => (name (fst ra), snd ra)) reports)%list).
  { induction reports as [|[r a] reports IH]; intros acc Hnd; simpl.
    - now rewrite app_nil_r.
    - simpl in Hnd. rewrite dict_setitem_new.
      + rewrite IH.
        * now rewrite <- app_assoc.
        * unfold dict_keys in *. rewrite map_app, <- app_assoc. exact Hnd.
      + intros HIn. apply NoDup_remove_2 in Hnd. apply Hnd.
        apply in_or_app. now left. }
  intros Hnd. apply (H []). exact Hnd.
Qed.

Lemma hits_fold (reports : list (PkgRepo * bool)) (acc : list string) :
  fold_left (fun (s : list string) (ra : PkgRepo * bool) =>
               if snd ra then (s ++ [name (fst ra)])%list else s)
            reports acc
  = (acc ++ hits reports)%list.
Proof.
  unfold hits.
  revert acc; induction reports as [|[r b] reports IH]; intros acc; simpl.
  - now rewrite app_nil_r.
  - rewrite IH. destruct b; simpl; [now rewrite <- app_assoc | reflexivity].
Qed.

Lemma hits_nil_iff (reports : list (PkgRepo * bool)) :
  hits reports = [] <-> forall r, ~ In (r, true) reports.
Proof.
  unfold hits. induction reports as [|[r b] reports IH]; simpl.
  - split; [intros _ r H; exact H | reflexivity].
  - destruct b; simpl.
    + split; [discriminate | intros H; exfalso; apply (H r); now left].
    + rewrite IH. split.
      * intros H r' [E|HIn]; [discriminate | now apply (H r')].
      * intros H r' HIn. apply (H r'). now right.
Qed.

Section Collection.

Variable Remote : Type.
Variable serve : string -> Remote -> option Response * Remote.
Implicit Types (c : RepoCollection) (pkg term repo : string) (rm : Remote).

Lemma exists_body_asks pkg (r : PkgRepo) (s : list string) rm :
  let body := fun (repo : PkgRepo) (repoNames : list string) =>
    logger_info ("Checking if package exists in repo " ++ name repo
                 ++ "...") ;;
    b <- PkgRepo_exists serve repo pkg ;;
    if b then
      logger_info ("Package " ++ pkg ++ " exists in repo " ++ name repo
                   ++ ".") ;;
      ret (repoNames ++ [name repo])%list
    else ret repoNames in
  (value_of (body r s rm), state_of (body r s rm)) =
  match PkgRepo_exists serve r pkg rm with
  | (Ok b, rm1, _) =>
      (Ok (if b then (s ++ [name r])%list else s), rm1)
  | (Raise e, rm1, _) => (Raise e, rm1)
  end.
Proof.
  cbv zeta. unfold logger_info, emit, bind, ret.
  destruct (PkgRepo_exists serve r pkg rm) as [[[[|]|e] rm1] t];
    reflexivity.
Qed.

(** The value and the final state of [RepoCollection.exists], from what
    the repositories answer when asked in turn. *)
Lemma RepoCollection_exists_run c pkg rm :
  let run := RepoCollection_exists serve c pkg rm in
  (value_of run, state_of run) =
  match ask_each (fun r => PkgRepo_exists serve r pkg)
                 (dict_values (repos c)) rm with
  | (Ok reports, rm') =>
      (Ok (if (List.length (hits reports) =? 0)%nat then PyFalse
           else PyList (hits reports)), rm')
  | (Raise e, rm') => (Raise e, rm')
  end.
Proof.
  cbv zeta. unfold RepoCollection_exists. rewrite bind_value_state.
  pose proof (for_each_asks (fun r => PkgRepo_exists serve r pkg)
                (fun r (b : bool) s =>
                   if b then (s ++ [name r])%list else s)
                _ (exists_body_asks pkg)
                (dict_values (repos c)) [] rm) as Hloop.
  cbv beta in Hloop.
  match type of Hloop with
  | (value_of ?l, _) = _ => destruct l as [[v st1] t1]
  end.
  unfold value_of, state_of in Hloop; simpl in Hloop.
  destruct (ask_each _ (dict_values (repos c)) rm) as [[reports|e] rm'];
    injection Hloop as -> ->; [|reflexivity].
  rewrite hits_fold.
  change ([] ++ hits reports)%list with (hits reports).
  destruct (List.length (hits reports) =? 0)%nat; reflexivity.
Qed.

(** C1, as the code has it.  [exists] asks the registered repositories
    in the order of the mapping.  When every one of them answers, it
    returns [False] exactly when none answers [True]; when some do, it
    returns the list of the names of those that do, in that order, and the
    list is not empty.  When one of them raises, [exists] returns neither
    [False] nor a list: the exception of the first that raises leaves it,
    and the repositories after that one are not asked. *)
Theorem RepoCollection_exists_reports c pkg rm out rm' :
  ask_each (fun r => PkgRepo_exists serve r pkg) (dict_values (repos c)) rm
  = (out, rm') ->
  let v := value_of (RepoCollection_exists serve c pkg rm) in
  match out with
  | Ok reports =>
      (v = Ok PyFalse <-> forall r, ~ In (r, true) reports)
      /\ ((exists r, In (r, true) reports) ->
          v = Ok (PyList (hits reports)) /\ hits reports <> [])
      /\ map fst reports = dict_values (repos c)
  | Raise e =>
      v = Raise e
      /\ exists before r after reports rm1,
           dict_values (repos c) = (before ++ r :: after)%list
           /\ ask_each (fun r => PkgRepo_exists serve r pkg) before rm
              = (Ok reports, rm1)
           /\ value_of (PkgRepo_exists serve r pkg rm1) = Raise e
           /\ state_of (PkgRepo_exists serve r pkg rm1) = rm'
  end
  /\ state_of (RepoCollection_exists serve c pkg rm) = rm'.
Proof.
  intros Hask v. pose proof (RepoCollection_exists_run c pkg rm) as Hrun.
  cbv zeta in Hrun. rewrite Hask in Hrun.
  destruct out as [reports|e]; injection Hrun as Hv Hst; fold v in Hv;
    (split; [|exact Hst]).
  - rewrite Hv. rewrite <- hits_nil_iff.
    destruct (hits reports) as [|h hs] eqn:Eh; simpl.
    + split; [tauto|]. split; [|eapply ask_each_all, Hask].
      intros [r Hr]. exfalso.
      assert (Hnil : hits reports = []) by exact Eh.
      rewrite hits_nil_iff in Hnil. exact (Hnil r Hr).
    + split; [split; discriminate|].
      split; [intros _; split; [reflexivity | discriminate]|].
      eapply ask_each_all, Hask.
  - split; [exact Hv|]. now apply ask_each_first_raise.
Qed.

(** When a repository raises, [exists] raises the same and the
    repositories after it are not asked. *)
Lemma RepoCollection_exists_raises c pkg rm e rm' :
  ask_each (fun r => PkgRepo_exists serve r pkg) (dict_values (repos c)) rm
  = (Raise e, rm') ->
  value_of (RepoCollection_exists serve c pkg rm) = Raise e.
Proof.
  intros Hask. pose proof (RepoCollection_exists_run c pkg rm) as Hrun.
  cbv zeta in Hrun. rewrite Hask in Hrun. now injection Hrun.
Qed.

Lemma gather_body_asks {A} (ask : PkgRepo -> M Remote A)
  (msg : PkgRepo -> string) (r : PkgRepo) (s : dict A) rm :
  let body := fun (member : PkgRepo) (results : dict A) =>
    logger_info (msg member) ;;
    a <- ask member ;;
    ret (dict_setitem (name member) a results) in
  (value_of (body r s rm), state_of (body r s rm)) =
  match ask r rm with
  | (Ok a, rm1, _) => (Ok (dict_setitem (name r) a s), rm1)
  | (Raise e, rm1, _) => (Raise e, rm1)
  end.
Proof.
  cbv zeta. unfold logger_info, emit, bind, ret.
  destruct (ask r rm) as [[[a|e] rm1] t]; reflexivity.
Qed.

(** The loop shared by [search] and [list]. *)
Lemma gather_run {A} (ask : PkgRepo -> M Remote A)
  (msg : PkgRepo -> string) (rs : list PkgRepo) rm :
  let run := for_each rs (fun member results =>
      logger_info (msg member) ;;
      a <- ask member ;;
      ret (dict_setitem (name member) a results)) [] rm in
  (value_of run, state_of run) =
  match ask_each ask rs rm with
  | (Ok reports, rm') => (Ok (slots reports), rm')
  | (Raise e, rm') => (Raise e, rm')
  end.
Proof.
  cbv zeta.
  apply (for_each_asks ask (fun r a s => dict_setitem (name r) a s) _
           (gather_body_asks ask msg)).
Qed.

(** C6, as the code has it.  [search] asks the registered repositories
    in turn.  When all of them answer, it returns the mapping that holds
    each answer under the name of its repository.  When one of them
    raises, the exception of the first that does leaves [search]: no
    mapping is returned, the answers obtained so far are lost and the
    repositories after it are not asked. *)
Theorem RepoCollection_search_all_or_nothing c term rm out rm' :
  ask_each (fun r => PkgRepo_search serve r term) (dict_values (repos c)) rm
  = (out, rm') ->
  value_of (RepoCollection_search serve c term rm) =
    match out with
    | Ok reports => Ok (slots reports)
    | Raise e => Raise e
    end
  /\ state_of (RepoCollection_search serve c term rm) = rm'
  /\ (forall e, out = Raise e ->
      exists before r after reports rm1,
        dict_values (repos c) = (before ++ r :: after)%list
        /\ ask_each (fun r => PkgRepo_search serve r term) before rm
           = (Ok reports, rm1)
        /\ value_of (PkgRepo_search serve r term rm1) = Raise e
        /\ state_of (PkgRepo_search serve r term rm1) = rm').
Proof.
  intros Hask. unfold RepoCollection_search.
  pose proof (gather_run (fun r => PkgRepo_search serve r term)
                (fun r => "Searching repo " ++ name r ++ " for term "
                             ++ term ++ "...")
                (dict_values (repos c)) rm) as Hrun.
  cbv zeta in Hrun. rewrite Hask in Hrun.
  split; [|split].
  - destruct out as [reports|e]; injection Hrun as Hv Hs; exact Hv.
  - destruct out as [reports|e]; injection Hrun as Hv Hs; exact Hs.
  - intros e ->. now apply ask_each_first_raise.
Qed.

(** [list] gathers in the same way. *)
Lemma RepoCollection_list_all_or_nothing c rm out rm' :
  ask_each (fun r => PkgRepo_list serve r) (dict_values (repos c)) rm
  = (out, rm') ->
  value_of (RepoCollection_list serve c rm) =
    match out with
    | Ok reports => Ok (slots reports)
    | Raise e => Raise e
    end
  /\ state_of (RepoCollection_list serve c rm) = rm'.
Proof.
  intros Hask. unfold RepoCollection_list.
  pose proof (gather_run (fun r => PkgRepo_list serve r)
                (fun r => "Fetching packages in repo " ++ name r
                             ++ "...")
                (dict_values (repos c)) rm) as Hrun.
  cbv zeta in Hrun. rewrite Hask in Hrun.
  destruct out as [reports|e]; injection Hrun as Hv Hs;
    (split; [exact Hv | exact Hs]).
Qed.

(** C4.  [RepoCollection.get] raises the unknown-repository error
    exactly when the given name is not a key of the mapping, and then it
    does nothing else; when the name is registered its run is the run of
    [get] on the repository registered under that name. *)
Theorem RepoCollection_get_delegates c pkg repo rm :
  let run := RepoCollection_get serve c pkg repo rm in
  (value_of run = Raise (RepoNotFound repo)
   <-> ~ In repo (dict_keys (repos c)))
  /\ (~ In repo (dict_keys (repos c)) ->
      run = (Raise (RepoNotFound repo), rm, []))
  /\ (forall r, dict_get repo (repos c) = Some r ->
        run = PkgRepo_get serve r pkg rm).
Proof.
  cbv zeta. unfold RepoCollection_get, dict_contains, dict_getitem.
  destruct (dict_get repo (repos c)) as [r|] eqn:E;
    cbv beta iota delta [negb].
  - assert (Hrun : bind (ret r) (fun r0 => PkgRepo_get serve r0 pkg) rm
                   = PkgRepo_get serve r pkg rm).
    { unfold bind, ret.
      now destruct (PkgRepo_get serve r pkg rm) as [[v st] t]. }
    rewrite Hrun. split; [|split].
    + split.
      * intros Hv. apply PkgRepo_get_raises in Hv.
        unfold RepoNotFound, NotFound in Hv.
        destruct Hv as [Hv|[Hv|Hv]]; discriminate.
      * intros Hnot. apply dict_get_None in Hnot. congruence.
    + intros Hnot. apply dict_get_None in Hnot. congruence.
    + now intros r' [= <-].
  - split; [|split].
    + split; [intros _; now apply dict_get_None | reflexivity].
    + reflexivity.
    + discriminate.
Qed.

(** C9.  With no registered repository, [exists] returns [False] and
    [search] and [list] return the empty mapping; the remote hosts are left
    as they were and no request is sent: [exists] emits one log line,
    [search] and [list] emit nothing. *)
Theorem empty_collection_asks_nobody c pkg term rm :
  repos c = [] ->
  RepoCollection_exists serve c pkg rm
  = (Ok PyFalse, rm,
     [Log INFO ("Package " ++ pkg ++ " does not exist in any repos.")])
  /\ RepoCollection_search serve c term rm = (Ok [], rm, [])
  /\ RepoCollection_list serve c rm = (Ok [], rm, [])
  /\ requests (trace_of (RepoCollection_exists serve c pkg rm)) = [].
Proof.
  intros Hempty.
  unfold RepoCollection_exists, RepoCollection_search, RepoCollection_list.
  rewrite Hempty. repeat split.
Qed.

End Collection.

(* ================================================================== *)
(** ** The scenarios of the specification *)

Example foo_only_in_A :
  value_of (RepoCollection_exists (static foo_in_A) collectionAB "foo" tt)
  = Ok (PyList ["A"]).
Proof. reflexivity. Qed.

Example get_foo_from_B_is_not_found :
  value_of (RepoCollection_get (static foo_in_A) collectionAB "foo" "B" tt)
  = Raise (NotFound "foo").
Proof. reflexivity. Qed.

Example get_foo_from_A :
  value_of (RepoCollection_get (static foo_in_A) collectionAB "foo" "A" tt)
  = Ok foo_metadata.
Proof. reflexivity. Qed.

Example search_foo_in_catalog :
  value_of (PkgRepo_search (static foo_in_A) repoA "foo" tt)
  = Ok (JArr [JStr "foo"; JStr "foobar"]).
Proof. reflexivity. Qed.

Example collectionAB_str : RepoCollection_str collectionAB = "Repo Collection: A, B".
Proof. reflexivity. Qed.

(* ------------------------------------------------------------------ *)
(** *** Instances of the conditional theorems *)

Lemma RepoCollection_exists_reports_witness :
  ask_each (fun r => PkgRepo_exists (static foo_in_A) r "foo")
           (dict_values (repos collectionAB)) tt
  = (Ok [(repoA, true); (repoB, false)], tt)
  /\ (let v := value_of (RepoCollection_exists (static foo_in_A)
                           collectionAB "foo" tt) in
      ((v = Ok PyFalse
        <-> forall r, ~ In (r, true) [(repoA, true); (repoB, false)])
       /\ ((exists r, In (r, true) [(repoA, true); (repoB, false)]) ->
           v = Ok (PyList (hits [(repoA, true); (repoB, false)]))
           /\ hits [(repoA, true); (repoB, false)] <> [])
       /\ map fst [(repoA, true); (repoB, false)]
          = dict_values (repos collectionAB))
      /\ state_of (RepoCollection_exists (static foo_in_A)
                     collectionAB "foo" tt) = tt).
Proof.
  split.
  - reflexivity.
  - apply (RepoCollection_exists_reports unit (static foo_in_A)
             collectionAB "foo" tt (Ok [(repoA, true); (repoB, false)]) tt).
    reflexivity.
Defined.

Lemma PkgRepo_search_filters_catalog_witness :
  let r := mkResponse 200
             (Some (JArr [JStr "foo"; JStr "foobar"; JStr "baz"])) in
  let data := JArr [JStr "foo"; JStr "foobar"; JStr "baz"] in
  let names := ["foo"; "foobar"; "baz"] in
  static foo_in_A (catalog_url repoA) tt = (Some r, tt)
  /\ body_json r = Some data
  /\ catalog_names data = Some names
  /\ (let selected := filter (str_in "foo") names in
      value_of (PkgRepo_search (static foo_in_A) repoA "foo" tt)
      = Ok (JArr (map JStr selected))
      /\ (forall n, In n selected
                    <-> In n names /\ exists a b, n = a ++ "foo" ++ b)
      /\ value_of (PkgRepo_search (static foo_in_A) repoA "" tt)
         = Ok (JArr (map JStr names))
      /\ value_of (PkgRepo_list (static foo_in_A) repoA tt) = Ok data
      /\ (forall items, data = JArr items ->
            value_of (PkgRepo_search (static foo_in_A) repoA "" tt)
            = value_of (PkgRepo_list (static foo_in_A) repoA tt))).
Proof.
  intros r data names.
  split; [reflexivity|]. split; [reflexivity|]. split; [reflexivity|].
  apply (PkgRepo_search_filters_catalog unit (static foo_in_A) repoA "foo"
           tt r tt data names); reflexivity.
Defined.

Lemma RepoCollection_search_all_or_nothing_witness :
  ask_each (fun r => PkgRepo_search (static B_unreachable) r "foo")
           (dict_values (repos collectionABC)) tt
  = (Raise RequestException, tt)
  /\ value_of (RepoCollection_search (static B_unreachable)
                 collectionABC "foo" tt)
     = Raise RequestException.
Proof.
  split.
  - reflexivity.
  - apply (RepoCollection_search_all_or_nothing unit (static B_unreachable)
             collectionABC "foo" tt (Raise RequestException) tt).
    reflexivity.
Defined.

Lemma empty_collection_asks_nobody_witness :
  repos RepoCollection_init = []
  /\ (RepoCollection_exists (static foo_in_A) RepoCollection_init "foo" tt
      = (Ok PyFalse, tt,
         [Log INFO ("Package " ++ "foo" ++ " does not exist in any repos.")])
      /\ RepoCollection_search (static foo_in_A) RepoCollection_init "foo" tt
         = (Ok [], tt, [])
      /\ RepoCollection_list (static foo_in_A) RepoCollection_init tt
         = (Ok [], tt, [])
      /\ requests (trace_of (RepoCollection_exists (static foo_in_A)
                               RepoCollection_init "foo" tt)) = []).
Proof.
  split.
  - reflexivity.
  - apply (empty_collection_asks_nobody unit (static foo_in_A)
             RepoCollection_init "foo" "foo" tt).
    reflexivity.
Defined.

(* ------------------------------------------------------------------ *)
(** *** Where the code departs from the specification *)

(** C1: [foo] is not in A and the host of B cannot be reached, so that no
    repository reports [foo]; [exists] raises instead of returning
    [False]. *)
Lemma RepoCollection_exists_unreachable_counterexample :
  value_of (PkgRepo_exists (static foo_absent_B_unreachable) repoA "foo" tt)
  = Ok false
  /\ value_of (PkgRepo_exists (static foo_absent_B_unreachable) repoB "foo"
                 tt)
     = Raise RequestException
  /\ (forall r, In r (dict_values (repos collectionAB)) ->
        value_of (PkgRepo_exists (static foo_absent_B_unreachable) r "foo" tt)
        <> Ok true)
  /\ value_of (RepoCollection_exists (static foo_absent_B_unreachable)
                 collectionAB "foo" tt)
     = Raise RequestException
  /\ value_of (RepoCollection_exists (static foo_absent_B_unreachable)
                 collectionAB "foo" tt)
     <> Ok PyFalse.
Proof.
  split; [reflexivity|]. split; [reflexivity|]. split.
  - intros r [<-|[<-|[]]]; discriminate.
  - split; [reflexivity | discriminate].
Qed.

(** C3: on a mapping catalog, [search] with the empty term returns the
    list of the keys and [list] returns the mapping. *)
Lemma PkgRepo_search_empty_term_counterexample :
  value_of (PkgRepo_search (static foo_in_A) repoB "" tt)
  = Ok (JArr [JStr "foo"; JStr "qux"])
  /\ value_of (PkgRepo_list (static foo_in_A) repoB tt)
     = Ok (JObj [("foo", JNull); ("qux", JNull)])
  /\ value_of (PkgRepo_search (static foo_in_A) repoB "" tt)
     <> value_of (PkgRepo_list (static foo_in_A) repoB tt).
Proof.
  split; [reflexivity|]. split; [reflexivity|]. discriminate.
Qed.

(** C5: a host that answers 500 without a body is reported as having the
    package; nothing is raised. *)
Lemma PkgRepo_exists_500_counterexample :
  static A_broken (package_url repoA "foo") tt
  = (Some (mkResponse 500 None), tt)
  /\ value_of (PkgRepo_exists (static A_broken) repoA "foo" tt) = Ok true
  /\ (forall e,
        value_of (PkgRepo_exists (static A_broken) repoA "foo" tt)
        <> Raise e).
Proof.
  split; [reflexivity|]. split; [reflexivity|]. discriminate.
Qed.

(** C6: of three repositories the second cannot be reached; the searches
    of the first and of the third succeed on their own, and the search of
    the collection raises instead of returning a mapping. *)
Lemma RepoCollection_search_partial_failure_counterexample :
  value_of (PkgRepo_search (static B_unreachable) repoA "foo" tt)
  = Ok (JArr [JStr "foo"; JStr "foobar"])
  /\ value_of (PkgRepo_search (static B_unreachable) repoB "foo" tt)
     = Raise RequestException
  /\ value_of (PkgRepo_search (static B_unreachable) repoC "foo" tt)
     = Ok (JArr [JStr "food"])
  /\ value_of (RepoCollection_search (static B_unreachable)
                 collectionABC "foo" tt)
     = Raise RequestException
  /\ (forall results,
        value_of (RepoCollection_search (static B_unreachable)
                    collectionABC "foo" tt)
        <> Ok results).
Proof.
  repeat (split; [reflexivity|]). discriminate.
Qed.

(* ================================================================== *)
(** ** Further properties: the catalog of one repository *)

Section MoreStringFacts.

Lemma append_nil_r (s : string) : s ++ "" = s.
Proof. induction s as [|ch s IH]; simpl; [reflexivity | now rewrite IH]. Qed.

Lemma append_assoc (a b c : string) : (a ++ b) ++ c = a ++ b ++ c.
Proof. induction a as [|ch a IH]; simpl; [reflexivity | now rewrite IH]. Qed.

Lemma str_in_refl (s : string) : str_in s s = true.
Proof. apply str_in_iff. exists "", "". simpl. now rewrite append_nil_r. Qed.

Lemma str_in_trans (t u s : string) :
  str_in t u = true -> str_in u s = true -> str_in t s = true.
Proof.
  rewrite !str_in_iff. intros (a & b & ->) (a' & b' & ->).
  exists (a' ++ a), (b ++ b'). now rewrite !append_assoc.
Qed.

Lemma str_in_length (t s : string) :
  str_in t s = true -> String.length t <= String.length s.
Proof.
  rewrite str_in_iff. intros (a & b & ->). rewrite !length_append. lia.
Qed.

End MoreStringFacts.

Section Catalog.

Variable Remote : Type.
Variable serve : string -> Remote -> option Response * Remote.
Implicit Types (self : PkgRepo) (term : string) (rm : Remote).

(** The loop of [search] on any elements: it stops with [TypeError] when
    one of them is a scalar, otherwise it keeps those that pass the
    test. *)
Lemma search_loop_any term (items acc : list json) rm :
  for_each items
    (fun pkgName results =>
       b <- lift (py_in term pkgName) ;;
       if b then ret (results ++ [pkgName])%list else ret results) acc rm
  = (if existsb scalar items then Raise TypeError
     else Ok (acc ++ filter (keeps term) items)%list, rm, []).
Proof.
  revert acc; induction items as [|x items IH]; intros acc.
  - simpl. unfold ret. now rewrite app_nil_r.
  - change (existsb scalar (x :: items))
      with (scalar x || existsb scalar items).
    change (filter (keeps term) (x :: items))
      with (if keeps term x then x :: filter (keeps term) items
            else filter (keeps term) items).
    simpl for_each. unfold bind at 1. unfold bind at 1. unfold lift at 1.
    unfold keeps at 1.
    destruct x; simpl py_in; cbv beta iota; try reflexivity.
    + destruct (str_in term s); unfold ret at 1; rewrite IH; simpl;
        destruct (existsb scalar items); try reflexivity.
      now rewrite <- app_assoc.
    + destruct (existsb (str_eq_json term) items0); unfold ret at 1;
        rewrite IH; simpl; destruct (existsb scalar items); try reflexivity.
      now rewrite <- app_assoc.
    + destruct (existsb (String.eqb term) (dict_keys members));
        unfold ret at 1; rewrite IH; simpl;
        destruct (existsb scalar items); try reflexivity.
      now rewrite <- app_assoc.
Qed.

(** The run of [search], case by case. *)
Lemma PkgRepo_search_outcome self term rm :
  PkgRepo_search serve self term rm =
  let start := Log DEBUG ("Searching repo " ++ name self ++ " for term "
                          ++ term ++ "...") in
  let fetch := Request (catalog_url self) in
  match serve (catalog_url self) rm with
  | (None, rm') => (Raise RequestException, rm', [start; fetch])
  | (Some r, rm') =>
      match body_json r with
      | None => (Raise JSONDecodeError, rm', [start; fetch])
      | Some data =>
          match py_iter data with
          | Raise e => (Raise e, rm', [start; fetch])
          | Ok items =>
              if existsb scalar items
              then (Raise TypeError, rm', [start; fetch])
              else
                (Ok (JArr (filter (keeps term) items)), rm',
                 [start; fetch;
                  Log DEBUG
                    ("Found "
                     ++ str_of_nat (List.length (filter (keeps term) items))
                     ++ " results for term " ++ term ++ " in repo "
                     ++ name self ++ ".")])
          end
      end
  end.
Proof.
  unfold PkgRepo_search, catalog_url.
  unfold logger_debug, requests_get, Response_json.
  unfold bind at 1. unfold emit at 1. unfold bind at 1.
  destruct (serve _ rm) as [[r|] rm']; [|reflexivity].
  destruct (body_json r) as [data|]; [|reflexivity].
  unfold bind at 1. unfold ret at 1. unfold bind at 1. unfold lift at 1.
  destruct (py_iter data) as [items|e]; [|reflexivity].
  unfold bind at 1. rewrite search_loop_any.
  destruct (existsb scalar items); reflexivity.
Qed.

(** The run of [list], case by case. *)
Lemma PkgRepo_list_outcome self rm :
  PkgRepo_list serve self rm =
  let start := Log DEBUG ("Listing all packages in repo " ++ name self
                          ++ "...") in
  let fetch := Request (catalog_url self) in
  match serve (catalog_url self) rm with
  | (None, rm') => (Raise RequestException, rm', [start; fetch])
  | (Some r, rm') =>
      match body_json r with
      | None => (Raise JSONDecodeError, rm', [start; fetch])
      | Some data =>
          match py_len data with
          | Raise e => (Raise e, rm', [start; fetch])
          | Ok n =>
              (Ok data, rm',
               [start; fetch;
                Log DEBUG ("Found " ++ str_of_nat n ++ " packages in repo "
                           ++ name self ++ ".")])
          end
      end
  end.
Proof.
  unfold PkgRepo_list, catalog_url.
  unfold logger_debug, requests_get, Response_json.
  unfold bind at 1. unfold emit at 1. unfold bind at 1.
  destruct (serve _ rm) as [[r|] rm']; [|reflexivity].
  destruct (body_json r) as [data|]; [|reflexivity].
  unfold bind at 1. unfold ret at 1. unfold bind at 1. unfold lift at 1.
  destruct (py_len data) as [n|e]; reflexivity.
Qed.

(** X1.  Once the catalog document is fetched and parsed, [list] returns
    it unchanged when it is an array, a mapping or a string, and raises
    [TypeError] when it is [null], a boolean or a number: the length it
    logs is taken before the document is returned. *)
Theorem PkgRepo_list_verbatim self rm r rm' data :
  serve (catalog_url self) rm = (Some r, rm') ->
  body_json r = Some data ->
  value_of (PkgRepo_list serve self rm)
  = (if scalar data then Raise TypeError else Ok data)
  /\ state_of (PkgRepo_list serve self rm) = rm'.
Proof.
  intros Hserve Hbody. rewrite PkgRepo_list_outcome. cbv zeta.
  rewrite Hserve, Hbody. destruct data; split; reflexivity.
Qed.

(** X2.  Once the catalog document is fetched and parsed, [search] raises
    [TypeError] when the document is a scalar or when any of the elements
    it iterates is one, even if other elements match; otherwise it returns
    the array of the elements that pass the membership test, in order. *)
Theorem PkgRepo_search_any_catalog self term rm r rm' data :
  serve (catalog_url self) rm = (Some r, rm') ->
  body_json r = Some data ->
  (scalar data = true ->
   value_of (PkgRepo_search serve self term rm) = Raise TypeError)
  /\ (forall items, py_iter data = Ok items ->
        value_of (PkgRepo_search serve self term rm)
        = if existsb scalar items then Raise TypeError
          else Ok (JArr (filter (keeps term) items))).
Proof.
  intros Hserve Hbody. rewrite PkgRepo_search_outcome. cbv zeta.
  rewrite Hserve, Hbody. split.
  - destruct data; try discriminate; reflexivity.
  - intros items ->. destruct (existsb scalar items); reflexivity.
Qed.

(** X3.  [search] and [list] each send exactly one request, to the
    catalog document, whatever the outcome.  When no response is obtained
    both raise the transport error; when the body is not JSON both raise
    the decoding error. *)
Theorem catalog_fetched_once self term rm :
  requests (trace_of (PkgRepo_search serve self term rm)) = [catalog_url self]
  /\ requests (trace_of (PkgRepo_list serve self rm)) = [catalog_url self]
  /\ (fst (serve (catalog_url self) rm) = None ->
      value_of (PkgRepo_search serve self term rm) = Raise RequestException
      /\ value_of (PkgRepo_list serve self rm) = Raise RequestException)
  /\ (forall r, fst (serve (catalog_url self) rm) = Some r ->
      body_json r = None ->
      value_of (PkgRepo_search serve self term rm) = Raise JSONDecodeError
      /\ value_of (PkgRepo_list serve self rm) = Raise JSONDecodeError).
Proof.
  rewrite PkgRepo_search_outcome, PkgRepo_list_outcome. cbv zeta.
  destruct (serve (catalog_url self) rm) as [[r|] rm']; simpl fst.
  - destruct (body_json r) as [data|] eqn:Hbody.
    + split; [|split; [|split]].
      * destruct (py_iter data) as [items|e]; [|reflexivity].
        destruct (existsb scalar items); reflexivity.
      * destruct (py_len data); reflexivity.
      * discriminate.
      * intros r0 [= <-]. congruence.
    + repeat split; discriminate.
  - repeat split; discriminate.
Qed.

(** X4.  Narrowing the term narrows the result: when [t] occurs in [t'],
    what [search] returns for [t'] is what it returns for [t], filtered
    once more by [t']. *)
Theorem PkgRepo_search_narrowing self t t' rm r rm' data names :
  serve (catalog_url self) rm = (Some r, rm') ->
  body_json r = Some data ->
  catalog_names data = Some names ->
  str_in t t' = true ->
  value_of (PkgRepo_search serve self t rm)
  = Ok (JArr (map JStr (filter (str_in t) names)))
  /\ value_of (PkgRepo_search serve self t' rm)
     = Ok (JArr (map JStr (filter (str_in t') (filter (str_in t) names)))).
Proof.
  intros Hserve Hbody Hnames Hsub.
  rewrite (PkgRepo_search_run Remote serve self t rm r rm' data names)
    by assumption.
  rewrite (PkgRepo_search_run Remote serve self t' rm r rm' data names)
    by assumption.
  split; [reflexivity|]. cbv zeta. unfold value_of; simpl.
  do 3 f_equal. rewrite filter_filter. apply filter_ext.
  intros n. destruct (str_in t' n) eqn:E.
  - now rewrite (str_in_trans t t' n Hsub E).
  - now rewrite andb_false_r.
Qed.

(** X5.  Searching for a name of the catalog finds that name, and no
    result of a search is shorter than the term. *)
Theorem PkgRepo_search_finds_itself self term rm r rm' data names :
  serve (catalog_url self) rm = (Some r, rm') ->
  body_json r = Some data ->
  catalog_names data = Some names ->
  (forall n, In n names ->
     exists found_names,
       value_of (PkgRepo_search serve self n rm)
       = Ok (JArr (map JStr found_names))
       /\ In n found_names)
  /\ (exists found_names,
        value_of (PkgRepo_search serve self term rm)
        = Ok (JArr (map JStr found_names))
        /\ forall m, In m found_names ->
             String.length term <= String.length m).
Proof.
  intros Hserve Hbody Hnames. split.
  - intros n Hn. exists (filter (str_in n) names). split.
    + now rewrite
        (PkgRepo_search_run Remote serve self n rm r rm' data names).
    + apply filter_In. split; [exact Hn | apply str_in_refl].
  - exists (filter (str_in term) names). split.
    + now rewrite
        (PkgRepo_search_run Remote serve self term rm r rm' data names).
    + intros m Hm. apply filter_In in Hm. now apply str_in_length.
Qed.

End Catalog.

(* ================================================================== *)
(** ** Further properties: metadata and registration *)

Section Metadata.

Variable Remote : Type.
Variable serve : string -> Remote -> option Response * Remote.
Implicit Types (self : PkgRepo) (pkg : string) (rm : Remote).


(** X7.  [get] sends two requests when its call to [exists] returns
    [True] and one otherwise, all to the document of the package. *)
Theorem PkgRepo_get_requests self pkg rm :
  requests (trace_of (PkgRepo_get serve self pkg rm)) =
  match value_of (PkgRepo_exists serve self pkg rm) with
  | Ok true => [package_url self pkg; package_url self pkg]
  | _ => [package_url self pkg]
  end.
Proof.
  rewrite PkgRepo_get_run. cbv zeta.
  pose proof (PkgRepo_exists_requests Remote serve self pkg rm) as Hreq.
  destruct (PkgRepo_exists serve self pkg rm) as [[[[|]|e] rm1] t1];
    unfold value_of, trace_of in *; simpl in *.
  - destruct (serve _ rm1) as [[r|] rm2]; [destruct (body_json r)|];
      simpl; now rewrite requests_app, Hreq.
  - now rewrite app_nil_r.
  - exact Hreq.
Qed.

End Metadata.

Section Registration.

Implicit Types (c : RepoCollection) (k : string).

Lemma dict_setitem_overwrite {V} (d : dict V) k (v v' : V) :
  dict_setitem k v' (dict_setitem k v d) = dict_setitem k v' d.
Proof.
  induction d as [|[k0 v0] d IH]; simpl.
  - now rewrite String.eqb_refl.
  - destruct (String.eqb k k0) eqn:E; simpl.
    + now rewrite String.eqb_refl.
    + now rewrite E, IH.
Qed.

Lemma find_map {A B} (p : B -> bool) (g : A -> B) (l : list A) :
  find p (map g l) = option_map g (find (fun x => p (g x)) l).
Proof.
  induction l as [|x l IH]; simpl; [reflexivity|].
  destruct (p (g x)); [reflexivity | exact IH].
Qed.

Lemma load_repos_adds (entries : list (string * string)) :
  load_repos entries
  = fold_left RepoCollection_add (map repo_of_entry entries)
              RepoCollection_init.
Proof.
  unfold load_repos. generalize RepoCollection_init.
  induction entries as [|e entries IH]; intros c; simpl; [reflexivity|].
  apply IH.
Qed.

Lemma entry_names (entries : list (string * string)) :
  map name (map repo_of_entry entries) = map fst entries.
Proof. rewrite map_map. reflexivity. Qed.

Lemma load_repos_keys (entries : list (string * string)) :
  dict_keys (repos (load_repos entries)) = first_seen (map fst entries).
Proof. now rewrite load_repos_adds, loaded_keys, entry_names. Qed.

(** X8.  [add] puts a new name at the end of the mapping and leaves the
    order as it is when the name is registered already; registering twice
    under one name leaves exactly what registering the second repository
    alone leaves. *)
Theorem RepoCollection_add_order c (first second : PkgRepo) :
  dict_keys (repos (RepoCollection_add c first))
  = (if dict_contains (name first) (repos c) then dict_keys (repos c)
     else dict_keys (repos c) ++ [name first])%list
  /\ (name first = name second ->
      RepoCollection_add (RepoCollection_add c first) second
      = RepoCollection_add c second).
Proof.
  split.
  - apply dict_keys_setitem.
  - intros Hname. unfold RepoCollection_add; simpl.
    now rewrite Hname, dict_setitem_overwrite.
Qed.

(** X9.  The collection built from the configuration keeps every
    repository under its name and has no name twice; its names are those
    of the entries, each where it first occurs; and a name leads to the
    repository of the last entry that carries it. *)
Theorem load_repos_last_entry_wins (entries : list (string * string)) :
  keyed_by_name (load_repos entries)
  /\ NoDup (dict_keys (repos (load_repos entries)))
  /\ dict_keys (repos (load_repos entries)) = first_seen (map fst entries)
  /\ (forall k,
        dict_get k (repos (load_repos entries))
        = option_map repo_of_entry (last_entry k entries)).
Proof.
  split; [|split; [|split]].
  - rewrite load_repos_adds. apply adds_keyed. constructor.
  - rewrite load_repos_adds. apply adds_unique. constructor.
  - apply load_repos_keys.
  - intros k. rewrite load_repos_adds, adds_lookup.
    unfold last_named, last_entry. rewrite <- map_rev, find_map. simpl.
    now destruct (find _ (rev entries)).
Qed.

End Registration.

(* ================================================================== *)
(** ** Further properties: the loops over the repositories *)

Lemma bind_requests {St A B} (m : M St A) (f : A -> M St B) (st : St) :
  requests (trace_of (bind m f st)) =
  match m st with
  | (Ok a, st1, t1) => (requests t1 ++ requests (trace_of (f a st1)))%list
  | (Raise _, _, t1) => requests t1
  end.
Proof.
  unfold bind. destruct (m st) as [[[a|e] st1] t1]; [|reflexivity].
  destruct (f a st1) as [[r st2] t2]. unfold trace_of; simpl.
  apply requests_app.
Qed.

Section LoopRequests.

Context {St A S : Type}.
Variable ask : PkgRepo -> M St A.
Variable upd : PkgRepo -> A -> S -> S.
Variable body : PkgRepo -> S -> M St S.
Variable target : PkgRepo -> string.

Hypothesis body_asks : forall r s st,
  (value_of (body r s st), state_of (body r s st)) =
  match ask r st with
  | (Ok a, st1, _) => (Ok (upd r a s), st1)
  | (Raise e, st1, _) => (Raise e, st1)
  end.

(** One turn of the loop sends one request. *)
Hypothesis body_requests : forall r s st,
  requests (trace_of (body r s st)) = [target r].

Lemma for_each_requests (rs : list PkgRepo) (s : S) (st : St) :
  requests (trace_of (for_each rs body s st)) = map target (asked ask rs st).
Proof.
  revert s st; induction rs as [|r rs IH]; intros s st; simpl.
  - reflexivity.
  - rewrite bind_requests.
    pose proof (body_asks r s st) as Hb.
    pose proof (body_requests r s st) as Hq.
    destruct (body r s st) as [[v st1] t1].
    unfold value_of, state_of, trace_of in Hb, Hq; simpl in Hb, Hq.
    destruct (ask r st) as [[[a|e] st1'] ta]; injection Hb as -> ->.
    + rewrite Hq, IH. reflexivity.
    + rewrite Hq. reflexivity.
Qed.

End LoopRequests.

Section Asked.

Context {St A : Type}.
Variable ask : PkgRepo -> M St A.

Lemma asked_prefix (rs : list PkgRepo) (st : St) :
  exists rest, rs = (asked ask rs st ++ rest)%list.
Proof.
  revert st; induction rs as [|r rs IH]; intros st; simpl.
  - now exists [].
  - destruct (ask r st) as [[[a|e] st1] t].
    + destruct (IH st1) as [rest Hrest]. exists rest. simpl.
      now rewrite <- Hrest.
    + now exists rs.
Qed.

Lemma asked_all (rs : list PkgRepo) (st st' : St)
  (reports : list (PkgRepo * A)) :
  ask_each ask rs st = (Ok reports, st') -> asked ask rs st = rs.
Proof.
  revert st st' reports; induction rs as [|r rs IH]; intros st st' reports;
    simpl; [reflexivity|].
  destruct (ask r st) as [[[a|e] st1] t]; [|discriminate].
  destruct (ask_each ask rs st1) as [[l|e] st2] eqn:E; [|discriminate].
  intros _. f_equal. eapply IH, E.
Qed.

End Asked.

(** Keeping some elements of a list with distinct keys leaves the keys
    distinct. *)
Lemma kept_keys_distinct {A B} (key : A -> B) (keep : A -> bool) :
  forall items : list A,
    NoDup (map key items) -> NoDup (map key (filter keep items)).
Proof.
  intros items. induction items as [|x items IH]; simpl; [auto|].
  intros Hnd. apply NoDup_cons_iff in Hnd as [Hx Hl].
  destruct (keep x); simpl; [|auto].
  constructor; [|auto].
  intros HIn. apply Hx. apply in_map_iff in HIn as (y & Hy & HIn).
  apply filter_In in HIn as [HIn _]. apply in_map_iff. eauto.
Qed.

Section CollectionLoops.

Variable Remote : Type.
Variable serve : string -> Remote -> option Response * Remote.
Implicit Types (c : RepoCollection) (pkg term : string) (rm : Remote).

Lemma PkgRepo_search_requests (self : PkgRepo) term rm :
  requests (trace_of (PkgRepo_search serve self term rm)) = [catalog_url self].
Proof.
  rewrite PkgRepo_search_outcome. cbv zeta.
  destruct (serve (catalog_url self) rm) as [[r|] rm']; [|reflexivity].
  destruct (body_json r) as [data|]; [|reflexivity].
  destruct (py_iter data) as [items|e]; [|reflexivity].
  destruct (existsb scalar items); reflexivity.
Qed.

Lemma PkgRepo_list_requests (self : PkgRepo) rm :
  requests (trace_of (PkgRepo_list serve self rm)) = [catalog_url self].
Proof.
  rewrite PkgRepo_list_outcome. cbv zeta.
  destruct (serve (catalog_url self) rm) as [[r|] rm']; [|reflexivity].
  destruct (body_json r) as [data|]; [|reflexivity].
  destruct (py_len data); reflexivity.
Qed.

Lemma exists_body_requests pkg (r : PkgRepo) (s : list string) rm :
  let body := fun (member : PkgRepo) (repoNames : list string) =>
    logger_info ("Checking if package exists in repo " ++ name member
                 ++ "...") ;;
    b <- PkgRepo_exists serve member pkg ;;
    if b then
      logger_info ("Package " ++ pkg ++ " exists in repo " ++ name member
                   ++ ".") ;;
      ret (repoNames ++ [name member])%list
    else ret repoNames in
  requests (trace_of (body r s rm)) = [package_url r pkg].
Proof.
  cbv zeta.
  pose proof (PkgRepo_exists_requests Remote serve r pkg rm) as Hq.
  unfold logger_info, emit, bind, ret.
  destruct (PkgRepo_exists serve r pkg rm) as [[[[|]|e] rm1] t];
    unfold trace_of in *; simpl in *; try exact Hq.
  - now rewrite requests_app, Hq.
  - now rewrite app_nil_r.
Qed.

Lemma gather_body_requests {A} (ask : PkgRepo -> M Remote A)
  (msg target : PkgRepo -> string) (r : PkgRepo) (s : dict A) rm :
  (forall member st, requests (trace_of (ask member st)) = [target member]) ->
  let body := fun (member : PkgRepo) (results : dict A) =>
    logger_info (msg member) ;;
    a <- ask member ;;
    ret (dict_setitem (name member) a results) in
  requests (trace_of (body r s rm)) = [target r].
Proof.
  intros Hask. cbv zeta. specialize (Hask r rm).
  unfold logger_info, emit, bind, ret.
  destruct (ask r rm) as [[[a|e] rm1] t];
    unfold trace_of in *; simpl in *; [|exact Hask].
  now rewrite app_nil_r.
Qed.

(** X15.  [RepoCollection.exists] sends one request per repository it
    asks, to the document of the package in that repository, in the order
    of the mapping; it asks a beginning of the mapping's repositories, up
    to the first that raises, and all of them when none raises. *)
Theorem RepoCollection_exists_asks_in_order c pkg rm :
  let ask := fun r => PkgRepo_exists serve r pkg in
  let visited := asked ask (dict_values (repos c)) rm in
  requests (trace_of (RepoCollection_exists serve c pkg rm))
  = map (fun r => package_url r pkg) visited
  /\ (exists rest, dict_values (repos c) = (visited ++ rest)%list)
  /\ (forall reports rm',
        ask_each ask (dict_values (repos c)) rm = (Ok reports, rm') ->
        visited = dict_values (repos c)).
Proof.
  cbv zeta. split; [|split].
  - unfold RepoCollection_exists. rewrite bind_requests.
    pose proof (for_each_requests (fun r => PkgRepo_exists serve r pkg)
                  (fun r (b : bool) s =>
                     if b then (s ++ [name r])%list else s)
                  _ (fun r => package_url r pkg)
                  (exists_body_asks Remote serve pkg)
                  (exists_body_requests pkg)
                  (dict_values (repos c)) [] rm) as Hloop.
    cbv beta in Hloop.
    match type of Hloop with
    | requests (trace_of ?l) = _ => destruct l as [[[names|e] rm1] t1]
    end; unfold trace_of in Hloop; simpl in Hloop; [|exact Hloop].
    rewrite Hloop.
    destruct (List.length names =? 0)%nat; simpl; now rewrite app_nil_r.
  - apply asked_prefix.
  - intros reports rm'. apply asked_all.
Qed.

(** X16.  [RepoCollection.search] and [RepoCollection.list] send one
    request per repository they ask, to its catalog document, in the order
    of the mapping, and none after the first repository that raises. *)
Theorem RepoCollection_gathers_in_order c term rm :
  requests (trace_of (RepoCollection_search serve c term rm))
  = map catalog_url
        (asked (fun r => PkgRepo_search serve r term)
               (dict_values (repos c)) rm)
  /\ requests (trace_of (RepoCollection_list serve c rm))
     = map catalog_url
           (asked (fun r => PkgRepo_list serve r) (dict_values (repos c)) rm).
Proof.
  split.
  - unfold RepoCollection_search.
    apply (for_each_requests (fun r => PkgRepo_search serve r term)
             (fun r a s => dict_setitem (name r) a s) _ catalog_url
             (gather_body_asks Remote _ _)
             (fun r s st =>
                gather_body_requests _ _ catalog_url r s st
                  (fun member st' =>
                     PkgRepo_search_requests member term st'))).
  - unfold RepoCollection_list.
    apply (for_each_requests (fun r => PkgRepo_list serve r)
             (fun r a s => dict_setitem (name r) a s) _ catalog_url
             (gather_body_asks Remote _ _)
             (fun r s st =>
                gather_body_requests _ _ catalog_url r s st
                  (fun member st' => PkgRepo_list_requests member st'))).
Qed.

(** X17.  In a collection that keeps every repository under its name,
    the list [RepoCollection.exists] returns is not empty, names no
    repository twice, names registered repositories only and is no longer
    than the mapping. *)
Theorem RepoCollection_exists_names_distinct c pkg rm names :
  keyed_by_name c ->
  NoDup (dict_keys (repos c)) ->
  value_of (RepoCollection_exists serve c pkg rm) = Ok (PyList names) ->
  names <> []
  /\ NoDup names
  /\ (forall n, In n names -> In n (dict_keys (repos c)))
  /\ List.length names <= List.length (repos c).
Proof.
  intros Hkeyed Hnd Hv.
  pose proof (RepoCollection_exists_run Remote serve c pkg rm) as Hrun.
  cbv zeta in Hrun.
  destruct (ask_each _ (dict_values (repos c)) rm) as [[reports|e] rm']
    eqn:Hask; injection Hrun as Hval _; rewrite Hv in Hval;
    [|discriminate].
  pose proof (ask_each_all _ _ _ _ _ Hask) as Hall.
  assert (Hkeys : map (fun ra : PkgRepo * bool => name (fst ra)) reports
                  = dict_keys (repos c)).
  { rewrite (keyed_keys c Hkeyed), <- Hall, map_map. reflexivity. }
  destruct (List.length (hits reports) =? 0)%nat eqn:El; [discriminate|].
  injection Hval as ->. unfold hits in *.
  split; [|split; [|split]].
  - intros Hnil. rewrite Hnil in El. discriminate.
  - apply kept_keys_distinct. now rewrite Hkeys.
  - intros n Hn. rewrite <- Hkeys.
    apply in_map_iff in Hn as (ra & <- & Hra).
    apply filter_In in Hra as [Hra _].
    apply in_map_iff. exists ra. now split.
  - rewrite length_map.
    assert (Hlen : List.length reports = List.length (repos c)).
    { rewrite <- (length_map fst reports), Hall. unfold dict_values.
      apply length_map. }
    rewrite <- Hlen. apply filter_length_le.
Qed.

(** X18.  In a collection that keeps every repository under its name,
    when every search succeeds [RepoCollection.search] returns a mapping
    with the collection's own keys, in the same order, each leading to what
    the search of that repository returned. *)
Theorem RepoCollection_search_slots c term rm reports rm' :
  keyed_by_name c ->
  NoDup (dict_keys (repos c)) ->
  ask_each (fun r => PkgRepo_search serve r term) (dict_values (repos c)) rm
  = (Ok reports, rm') ->
  value_of (RepoCollection_search serve c term rm)
  = Ok (map (fun ra => (name (fst ra), snd ra)) reports)
  /\ dict_keys (map (fun ra : PkgRepo * json => (name (fst ra), snd ra))
                    reports)
     = dict_keys (repos c).
Proof.
  intros Hkeyed Hnd Hask.
  pose proof (ask_each_all _ _ _ _ _ Hask) as Hall.
  assert (Hkeys : map (fun ra : PkgRepo * json => name (fst ra)) reports
                  = dict_keys (repos c)).
  { rewrite (keyed_keys c Hkeyed), <- Hall, map_map. reflexivity. }
  split.
  - unfold RepoCollection_search.
    pose proof (gather_run Remote (fun r => PkgRepo_search serve r term)
                  (fun r => "Searching repo " ++ name r ++ " for term "
                            ++ term ++ "...")
                  (dict_values (repos c)) rm) as Hrun.
    cbv zeta in Hrun. rewrite Hask in Hrun. injection Hrun as Hv _.
    rewrite <- (slots_distinct reports) by now rewrite Hkeys.
    exact Hv.
  - unfold dict_keys at 1. rewrite map_map. exact Hkeys.
Qed.

(** X19.  [RepoCollection.list] asks the registered repositories in turn.
    When all of them answer, it returns the mapping that holds each
    catalog under the name of its repository; with every repository under
    its own name these are the collection's keys in their order.  When one
    of them raises, that exception leaves [list] and no mapping is
    returned. *)
Theorem RepoCollection_list_gathers c rm out rm' :
  ask_each (fun r => PkgRepo_list serve r) (dict_values (repos c)) rm
  = (out, rm') ->
  value_of (RepoCollection_list serve c rm) =
    match out with
    | Ok reports => Ok (slots reports)
    | Raise e => Raise e
    end
  /\ state_of (RepoCollection_list serve c rm) = rm'
  /\ (keyed_by_name c -> NoDup (dict_keys (repos c)) ->
      forall reports, out = Ok reports ->
        slots reports = map (fun ra => (name (fst ra), snd ra)) reports
        /\ dict_keys (slots reports) = dict_keys (repos c)).
Proof.
  intros Hask. unfold RepoCollection_list.
  pose proof (gather_run Remote (fun r => PkgRepo_list serve r)
                (fun r => "Fetching packages in repo " ++ name r ++ "...")
                (dict_values (repos c)) rm) as Hrun.
  cbv zeta in Hrun. rewrite Hask in Hrun.
  split; [|split].
  - destruct out as [reports|e]; injection Hrun as Hv Hs; exact Hv.
  - destruct out as [reports|e]; injection Hrun as Hv Hs; exact Hs.
  - intros Hkeyed Hnd reports ->.
    pose proof (ask_each_all _ _ _ _ _ Hask) as Hall.
    assert (Hkeys : map (fun ra : PkgRepo * json => name (fst ra)) reports
                    = dict_keys (repos c)).
    { rewrite (keyed_keys c Hkeyed), <- Hall, map_map. reflexivity. }
    assert (Hslots : slots reports
                     = map (fun ra => (name (fst ra), snd ra)) reports)
      by (apply slots_distinct; now rewrite Hkeys).
    split; [exact Hslots|].
    rewrite Hslots. unfold dict_keys at 1. rewrite map_map. exact Hkeys.
Qed.

End CollectionLoops.

(* ================================================================== *)
(** ** Further properties: hosts that do not change *)

Section Steady.

Context {St : Type}.

Lemma steady_ret {A} (a : A) : steady (@ret St A a).
Proof. intros st. reflexivity. Qed.

Lemma steady_raise {A} (e : exn) : steady (@raise St A e).
Proof. intros st. reflexivity. Qed.

Lemma steady_lift {A} (r : result A) : steady (@lift St A r).
Proof. intros st. reflexivity. Qed.

Lemma steady_emit (ev : event) : steady (@emit St ev).
Proof. intros st. reflexivity. Qed.

Lemma steady_bind {A B} (m : M St A) (f : A -> M St B) :
  steady m -> (forall a, steady (f a)) -> steady (bind m f).
Proof.
  intros Hm Hf st. unfold bind. specialize (Hm st).
  destruct (m st) as [[[a|e] st1] t1]; unfold state_of in *; simpl in *;
    subst st1; [|reflexivity].
  specialize (Hf a st). destruct (f a st) as [[r st2] t2]. exact Hf.
Qed.

Lemma steady_for_each {A S} (body : A -> S -> M St S) (l : list A) (s : S) :
  (forall x s', steady (body x s')) -> steady (for_each l body s).
Proof.
  intros Hbody. revert s; induction l as [|x l IH]; intros s; simpl.
  - apply steady_ret.
  - apply steady_bind; [apply Hbody | exact IH].
Qed.

Lemma steady_dict_getitem {V} (d : dict V) (k : string) :
  steady (@dict_getitem St V d k).
Proof.
  unfold dict_getitem. destruct (dict_get k d);
    [apply steady_ret | apply steady_raise].
Qed.

(** Asking steady repositories in turn leaves the state alone, and each
    answer is the one the repository gives in that state. *)
Lemma ask_each_steady {A} (ask : PkgRepo -> M St A) :
  (forall r, steady (ask r)) ->
  forall rs st reports st',
    ask_each ask rs st = (Ok reports, st') ->
    st' = st /\ forall r a, In (r, a) reports -> value_of (ask r st) = Ok a.
Proof.
  intros Hask. induction rs as [|r rs IH]; intros st reports st'; simpl.
  - intros [= <- <-]. split; [reflexivity | intros r a []].
  - pose proof (Hask r st) as Hst.
    destruct (ask r st) as [[[a|e] st1] t] eqn:Er; [|discriminate].
    unfold state_of in Hst; simpl in Hst; subst st1.
    destruct (ask_each ask rs st) as [[l|e] st2] eqn:E; [|discriminate].
    intros [= <- <-]. destruct (IH st l st2 E) as [-> Hl].
    split; [reflexivity|].
    intros r' a' [[= <- <-]|HIn]; [now rewrite Er | now apply Hl].
Qed.

End Steady.

Lemma dict_get_In {V} (d : dict V) (k : string) (v : V) :
  dict_get k d = Some v -> In (k, v) d.
Proof.
  induction d as [|[k' v'] d IH]; simpl; [discriminate|].
  destruct (String.eqb_spec k k') as [->|Hne].
  - intros [= ->]. now left.
  - intros H. right. now apply IH.
Qed.

Lemma NoDup_map_inj {A B} (f : A -> B) (l : list A) (x y : A) :
  NoDup (map f l) -> In x l -> In y l -> f x = f y -> x = y.
Proof.
  induction l as [|z l IH]; simpl; [intros _ []|].
  intros Hnd Hx Hy Hf. apply NoDup_cons_iff in Hnd as [Hz Hl].
  destruct Hx as [->|Hx], Hy as [->|Hy].
  - reflexivity.
  - exfalso. apply Hz. rewrite Hf. now apply in_map.
  - exfalso. apply Hz. rewrite <- Hf. now apply in_map.
  - now apply IH.
Qed.

Lemma hits_In (reports : list (PkgRepo * bool)) (n : string) :
  In n (hits reports) <-> exists r, In (r, true) reports /\ name r = n.
Proof.
  unfold hits. rewrite in_map_iff. split.
  - intros ([r b] & Hn & HIn). apply filter_In in HIn as [HIn Hb].
    simpl in *. subst b. now exists r.
  - intros (r & HIn & Hn). exists (r, true). split; [exact Hn|].
    apply filter_In. now split.
Qed.

Section UnchangingHosts.

Variable Remote : Type.
Variable serve : string -> Remote -> option Response * Remote.
Hypothesis hosts_unchanging : unchanging serve.
Implicit Types (c : RepoCollection) (self : PkgRepo) (pkg term : string).

Ltac steady_step :=
  first
    [ apply steady_ret | apply steady_raise | apply steady_lift
    | apply steady_emit | apply steady_dict_getitem
    | apply steady_bind; [|intros ?]
    | apply steady_for_each; intros ? ?
    | match goal with |- steady (if ?b then _ else _) => destruct b end
    | match goal with
      | |- steady (match ?o with Some _ => _ | None => _ end) => destruct o
      end ].

Lemma steady_requests_get (target : string) : steady (requests_get serve target).
Proof.
  intros rm. unfold requests_get. pose proof (hosts_unchanging target rm).
  destruct (serve target rm) as [[r|] rm']; simpl in *; now subst.
Qed.

Lemma steady_Response_json (r : Response) : steady (@Response_json Remote r).
Proof. unfold Response_json. repeat steady_step. Qed.

Lemma steady_PkgRepo_exists self pkg : steady (PkgRepo_exists serve self pkg).
Proof.
  unfold PkgRepo_exists, logger_debug.
  repeat first [apply steady_requests_get | steady_step].
Qed.

Lemma steady_PkgRepo_get self pkg : steady (PkgRepo_get serve self pkg).
Proof.
  unfold PkgRepo_get, logger_debug.
  repeat first [apply steady_PkgRepo_exists | apply steady_requests_get
               | apply steady_Response_json | steady_step].
Qed.

Lemma steady_PkgRepo_search self term : steady (PkgRepo_search serve self term).
Proof.
  unfold PkgRepo_search, logger_debug.
  repeat first [apply steady_requests_get | apply steady_Response_json
               | steady_step].
Qed.

Lemma steady_PkgRepo_list self : steady (PkgRepo_list serve self).
Proof.
  unfold PkgRepo_list, logger_debug.
  repeat first [apply steady_requests_get | apply steady_Response_json
               | steady_step].
Qed.

Lemma steady_RepoCollection_exists c pkg :
  steady (RepoCollection_exists serve c pkg).
Proof.
  unfold RepoCollection_exists, logger_info.
  repeat first [apply steady_PkgRepo_exists | steady_step].
Qed.

Lemma steady_RepoCollection_get c pkg (n : string) :
  steady (RepoCollection_get serve c pkg n).
Proof.
  unfold RepoCollection_get.
  repeat first [apply steady_PkgRepo_get | steady_step].
Qed.

Lemma steady_RepoCollection_search c term :
  steady (RepoCollection_search serve c term).
Proof.
  unfold RepoCollection_search, logger_info.
  repeat first [apply steady_PkgRepo_search | steady_step].
Qed.

Lemma steady_RepoCollection_list c : steady (RepoCollection_list serve c).
Proof.
  unfold RepoCollection_list, logger_info.
  repeat first [apply steady_PkgRepo_list | steady_step].
Qed.

Lemma RepoCollection_get_registered c pkg (n : string) (r : PkgRepo)
  (rm : Remote) :
  dict_get n (repos c) = Some r ->
  RepoCollection_get serve c pkg n rm = PkgRepo_get serve r pkg rm.
Proof.
  intros Hget. unfold RepoCollection_get, dict_contains, dict_getitem.
  rewrite Hget. cbv beta iota delta [negb]. unfold bind, ret.
  now destruct (PkgRepo_get serve r pkg rm) as [[v st] t].
Qed.

Lemma PkgRepo_get_not_found_iff self pkg (rm : Remote) :
  value_of (PkgRepo_get serve self pkg rm) = Raise (NotFound pkg)
  <-> value_of (PkgRepo_exists serve self pkg rm) = Ok false.
Proof.
  rewrite PkgRepo_get_run, PkgRepo_exists_run. cbv zeta.
  destruct (serve _ rm) as [[r|] rm1].
  - destruct (status_code r =? 404)%Z.
    + split; reflexivity.
    + destruct (serve _ rm1) as [[r2|] rm2]; [destruct (body_json r2)|];
        unfold value_of; simpl; split; discriminate.
  - unfold value_of, NotFound; simpl; split; discriminate.
Qed.

(** X21.  On hosts that do not change, in a collection that keeps every
    repository under its name, [RepoCollection.exists] and
    [RepoCollection.get] agree about every registered name: when [exists]
    returns [False], [get] raises the not-found error for it; when
    [exists] returns a list, the name is in the list exactly when [get]
    does not raise the not-found error for it. *)
Theorem exists_agrees_with_get c pkg (rm : Remote) (n : string)
  (r : PkgRepo) :
  keyed_by_name c ->
  NoDup (dict_keys (repos c)) ->
  dict_get n (repos c) = Some r ->
  match value_of (RepoCollection_exists serve c pkg rm) with
  | Ok PyFalse =>
      value_of (RepoCollection_get serve c pkg n rm) = Raise (NotFound pkg)
  | Ok (PyList names) =>
      In n names
      <-> value_of (RepoCollection_get serve c pkg n rm)
          <> Raise (NotFound pkg)
  | Raise _ => True
  end.
Proof.
  intros Hkeyed Hnd Hget.
  rewrite (RepoCollection_get_registered c pkg n r rm Hget).
  pose proof (RepoCollection_exists_run Remote serve c pkg rm) as Hrun.
  cbv zeta in Hrun.
  destruct (ask_each (fun r0 => PkgRepo_exists serve r0 pkg)
              (dict_values (repos c)) rm) as [[reports|e] rm'] eqn:Hask;
    injection Hrun as Hv _; rewrite Hv; [|exact I].
  destruct (ask_each_steady _ (fun r0 => steady_PkgRepo_exists r0 pkg)
              _ _ _ _ Hask) as [_ Hanswers].
  pose proof (ask_each_all _ _ _ _ _ Hask) as Hall.
  (* the repository under [n] is registered, under its own name *)
  apply dict_get_In in Hget.
  assert (Hname : name r = n).
  { unfold keyed_by_name in Hkeyed. rewrite Forall_forall in Hkeyed.
    exact (Hkeyed _ Hget). }
  assert (Hr : In r (dict_values (repos c))).
  { unfold dict_values. apply in_map_iff. exists (n, r). now split. }
  assert (Hb : exists b, In (r, b) reports).
  { rewrite <- Hall in Hr. apply in_map_iff in Hr as ([r' b] & Hfst & HIn).
    simpl in Hfst. subst r'. now exists b. }
  destruct Hb as [b Hb]. pose proof (Hanswers r b Hb) as Hanswer.
  (* the name is listed exactly when that repository answered True *)
  assert (Hlisted : In n (hits reports) <-> b = true).
  { rewrite hits_In. split.
    - intros (r' & HIn & Hn').
      assert (r' = r).
      { apply (NoDup_map_inj name (dict_values (repos c))).
        - now rewrite <- (keyed_keys c Hkeyed).
        - rewrite <- Hall. apply in_map_iff. exists (r', true). now split.
        - exact Hr.
        - congruence. }
      subst r'. pose proof (Hanswers r true HIn). congruence.
    - intros ->. now exists r. }
  pose proof (PkgRepo_get_not_found_iff r pkg rm) as Hnf.
  destruct (List.length (hits reports) =? 0)%nat eqn:El.
  - apply Hnf. rewrite Hanswer. f_equal.
    destruct b; [|reflexivity].
    assert (HIn : In n (hits reports)) by now apply Hlisted.
    destruct (hits reports); [destruct HIn | discriminate].
  - rewrite Hlisted, Hnf, Hanswer. split.
    + intros -> [=].
    + intros Hne. destruct b; [reflexivity | now exfalso; apply Hne].
Qed.

End UnchangingHosts.

(* ------------------------------------------------------------------ *)
(** *** Instances of the further conditional theorems *)

Lemma PkgRepo_list_verbatim_witness :
  static odd_catalogs (catalog_url repoB) tt
  = (Some (mkResponse 200 (Some (JNum "42"))), tt)
  /\ body_json (mkResponse 200 (Some (JNum "42"))) = Some (JNum "42")
  /\ value_of (PkgRepo_list (static odd_catalogs) repoB tt) = Raise TypeError.
Proof.
  split; [reflexivity|]. split; [reflexivity|].
  apply (PkgRepo_list_verbatim unit (static odd_catalogs) repoB tt
           (mkResponse 200 (Some (JNum "42"))) tt (JNum "42"));
    reflexivity.
Defined.

Lemma PkgRepo_search_any_catalog_witness :
  let data := JArr [JStr "foo"; JNum "7"; JStr "foobar"] in
  static odd_catalogs (catalog_url repoA) tt
  = (Some (mkResponse 200 (Some data)), tt)
  /\ body_json (mkResponse 200 (Some data)) = Some data
  /\ value_of (PkgRepo_search (static odd_catalogs) repoA "foo" tt)
     = Raise TypeError.
Proof.
  intros data. split; [reflexivity|]. split; [reflexivity|].
  apply (proj2 (PkgRepo_search_any_catalog unit (static odd_catalogs) repoA
                  "foo" tt (mkResponse 200 (Some data)) tt data
                  eq_refl eq_refl)
               [JStr "foo"; JNum "7"; JStr "foobar"]).
  reflexivity.
Defined.

Lemma PkgRepo_search_narrowing_witness :
  let data := JArr [JStr "foo"; JStr "foobar"; JStr "baz"] in
  static foo_in_A (catalog_url repoA) tt
  = (Some (mkResponse 200 (Some data)), tt)
  /\ body_json (mkResponse 200 (Some data)) = Some data
  /\ catalog_names data = Some ["foo"; "foobar"; "baz"]
  /\ str_in "foo" "foob" = true
  /\ value_of (PkgRepo_search (static foo_in_A) repoA "foob" tt)
     = Ok (JArr [JStr "foobar"]).
Proof.
  intros data. repeat (split; [reflexivity|]).
  apply (PkgRepo_search_narrowing unit (static foo_in_A) repoA "foo" "foob"
           tt (mkResponse 200 (Some data)) tt data
           ["foo"; "foobar"; "baz"]); reflexivity.
Defined.

Lemma PkgRepo_search_finds_itself_witness :
  let data := JArr [JStr "foo"; JStr "foobar"; JStr "baz"] in
  static foo_in_A (catalog_url repoA) tt
  = (Some (mkResponse 200 (Some data)), tt)
  /\ body_json (mkResponse 200 (Some data)) = Some data
  /\ catalog_names data = Some ["foo"; "foobar"; "baz"]
  /\ (exists found_names,
        value_of (PkgRepo_search (static foo_in_A) repoA "baz" tt)
        = Ok (JArr (map JStr found_names))
        /\ In "baz" found_names).
Proof.
  intros data. repeat (split; [reflexivity|]).
  apply (proj1 (PkgRepo_search_finds_itself unit (static foo_in_A) repoA
                  "baz" tt (mkResponse 200 (Some data)) tt data
                  ["foo"; "foobar"; "baz"] eq_refl eq_refl eq_refl)).
  simpl. auto.
Defined.


Lemma collectionAB_keyed : keyed_by_name collectionAB.
Proof. repeat constructor. Defined.

Lemma collectionAB_distinct : NoDup (dict_keys (repos collectionAB)).
Proof.
  constructor.
  - simpl. intros [H|[]]. discriminate.
  - constructor; [intros [] | constructor].
Defined.

Lemma RepoCollection_exists_names_distinct_witness :
  keyed_by_name collectionAB
  /\ NoDup (dict_keys (repos collectionAB))
  /\ value_of (RepoCollection_exists (static foo_in_A_and_B)
                 collectionAB "foo" tt) = Ok (PyList ["A"; "B"])
  /\ NoDup ["A"; "B"].
Proof.
  split; [exact collectionAB_keyed|].
  split; [exact collectionAB_distinct|].
  split; [reflexivity|].
  apply (RepoCollection_exists_names_distinct unit (static foo_in_A_and_B)
           collectionAB "foo" tt ["A"; "B"]).
  - exact collectionAB_keyed.
  - exact collectionAB_distinct.
  - reflexivity.
Defined.

Lemma RepoCollection_search_slots_witness :
  let reports :=
    [(repoA, JArr [JStr "foo"; JStr "foobar"]); (repoB, JArr [JStr "foo"])] in
  keyed_by_name collectionAB
  /\ NoDup (dict_keys (repos collectionAB))
  /\ ask_each (fun r => PkgRepo_search (static foo_in_A) r "foo")
              (dict_values (repos collectionAB)) tt
     = (Ok reports, tt)
  /\ value_of (RepoCollection_search (static foo_in_A) collectionAB "foo" tt)
     = Ok [("A", JArr [JStr "foo"; JStr "foobar"]);
           ("B", JArr [JStr "foo"])].
Proof.
  intros reports.
  split; [exact collectionAB_keyed|].
  split; [exact collectionAB_distinct|].
  split; [reflexivity|].
  apply (RepoCollection_search_slots unit (static foo_in_A) collectionAB
           "foo" tt reports tt).
  - exact collectionAB_keyed.
  - exact collectionAB_distinct.
  - reflexivity.
Defined.

Lemma RepoCollection_list_gathers_witness :
  let reports :=
    [(repoA, JArr [JStr "foo"; JStr "foobar"; JStr "baz"]);
     (repoB, JObj [("foo", JNull); ("qux", JNull)])] in
  ask_each (fun r => PkgRepo_list (static foo_in_A) r)
           (dict_values (repos collectionAB)) tt
  = (Ok reports, tt)
  /\ value_of (RepoCollection_list (static foo_in_A) collectionAB tt)
     = Ok (slots reports).
Proof.
  intros reports. split; [reflexivity|].
  apply (RepoCollection_list_gathers unit (static foo_in_A) collectionAB tt
           (Ok reports) tt).
  reflexivity.
Defined.

Lemma static_unchanging (table : dict Response) : unchanging (static table).
Proof. intros target rm. reflexivity. Defined.

Lemma exists_agrees_with_get_witness :
  unchanging (static foo_in_A)
  /\ keyed_by_name collectionAB
  /\ NoDup (dict_keys (repos collectionAB))
  /\ dict_get "B" (repos collectionAB) = Some repoB
  /\ match value_of (RepoCollection_exists (static foo_in_A)
                       collectionAB "foo" tt) with
     | Ok PyFalse =>
         value_of (RepoCollection_get (static foo_in_A) collectionAB
                     "foo" "B" tt) = Raise (NotFound "foo")
     | Ok (PyList names) =>
         In "B" names
         <-> value_of (RepoCollection_get (static foo_in_A) collectionAB
                         "foo" "B" tt) <> Raise (NotFound "foo")
     | Raise _ => True
     end.
Proof.
  split; [exact (static_unchanging foo_in_A)|].
  split; [exact collectionAB_keyed|].
  split; [exact collectionAB_distinct|].
  split; [reflexivity|].
  apply (exists_agrees_with_get unit (static foo_in_A)
           (static_unchanging foo_in_A) collectionAB "foo" tt "B" repoB).
  - exact collectionAB_keyed.
  - exact collectionAB_distinct.
  - reflexivity.
Defined.

(* ================================================================== *)
(** ** Further properties: what can be raised, and by whom *)

Lemma append_cancel_l (a b c : string) : a ++ b = a ++ c -> b = c.
Proof.
  induction a as [|ch a IH]; simpl; [auto|]. intros [= H]. now apply IH.
Qed.

(** X22.  The description tells repositories of one name apart: two
    repositories with the same name and the same description are the same
    repository. *)
Theorem PkgRepo_str_same_name (r1 r2 : PkgRepo) :
  name r1 = name r2 -> PkgRepo_str r1 = PkgRepo_str r2 -> r1 = r2.
Proof.
  destruct r1 as [n1 u1], r2 as [n2 u2]. unfold PkgRepo_str. simpl.
  intros -> H. injection H as H.
  apply append_cancel_l in H. injection H as ->. reflexivity.
Qed.

Lemma PkgRepo_str_same_name_witness :
  name repoA = name (mkPkgRepo "A" "http://a/x")
  /\ PkgRepo_str repoA = PkgRepo_str (mkPkgRepo "A" "http://a/x")
  /\ repoA = mkPkgRepo "A" "http://a/x".
Proof.
  split; [reflexivity|]. split; [reflexivity|].
  apply (PkgRepo_str_same_name repoA (mkPkgRepo "A" "http://a/x"));
    reflexivity.
Defined.

Section Raises.

Variable Remote : Type.
Variable serve : string -> Remote -> option Response * Remote.
Implicit Types (c : RepoCollection) (self : PkgRepo) (pkg term : string)
  (rm : Remote).




(** X25.  For a registered name [RepoCollection.get] contacts the
    repository under that name only: it sends one or two requests, each to
    the document of the package in that repository. *)
Theorem RepoCollection_get_contacts_one c pkg (n : string) (r : PkgRepo) rm :
  dict_get n (repos c) = Some r ->
  let sent := requests (trace_of (RepoCollection_get serve c pkg n rm)) in
  (forall u, In u sent -> u = package_url r pkg)
  /\ 1 <= List.length sent <= 2.
Proof.
  intros Hget.
  rewrite (RepoCollection_get_registered Remote serve c pkg n r rm Hget).
  cbv zeta. rewrite PkgRepo_get_run. cbv zeta.
  pose proof (PkgRepo_exists_requests Remote serve r pkg rm) as Hreq.
  destruct (PkgRepo_exists serve r pkg rm) as [[[[|]|e] rm1] t1];
    unfold trace_of in *; simpl in *.
  - assert (Hsent : forall t2 : list event,
              requests t2 = [package_url r pkg] ->
              requests (t1 ++ t2)
              = [package_url r pkg; package_url r pkg]).
    { intros t2 H2. now rewrite requests_app, Hreq, H2. }
    destruct (serve _ rm1) as [[r2|] rm2]; [destruct (body_json r2)|];
      simpl; (rewrite Hsent by reflexivity);
      (split; [intros u [<-|[<-|[]]]; reflexivity | simpl; lia]).
  - rewrite app_nil_r, Hreq.
    split; [intros u [<-|[]]; reflexivity | simpl; lia].
  - rewrite Hreq. split; [intros u [<-|[]]; reflexivity | simpl; lia].
Qed.

End Raises.

Lemma RepoCollection_get_contacts_one_witness :
  dict_get "A" (repos collectionAB) = Some repoA
  /\ (let sent := requests (trace_of (RepoCollection_get (static foo_in_A)
                                        collectionAB "foo" "A" tt)) in
      (forall u, In u sent -> u = package_url repoA "foo")
      /\ 1 <= List.length sent <= 2).
Proof.
  split; [reflexivity|].
  apply (RepoCollection_get_contacts_one unit (static foo_in_A)
           collectionAB "foo" "A" repoA tt).
  reflexivity.
Defined.

(* ================================================================== *)
(** ** Further properties: the empty search term *)

Lemma ask_each_ext {St A} (ask1 ask2 : PkgRepo -> M St A)
  (rs : list PkgRepo) :
  (forall r st, In r rs ->
     (value_of (ask1 r st), state_of (ask1 r st))
     = (value_of (ask2 r st), state_of (ask2 r st))) ->
  forall st, ask_each ask1 rs st = ask_each ask2 rs st.
Proof.
  induction rs as [|r rs IH]; intros Hsame st; simpl; [reflexivity|].
  pose proof (Hsame r st (or_introl eq_refl)) as Hr.
  destruct (ask1 r st) as [[v1 s1] t1], (ask2 r st) as [[v2 s2] t2].
  unfold value_of, state_of in Hr; simpl in Hr. injection Hr as -> ->.
  destruct v2 as [a|e]; [|reflexivity].
  rewrite IH; [reflexivity|].
  intros r' st' Hr'. apply Hsame. now right.
Qed.

Lemma strings_of_names (names : list string) :
  strings_of (map JStr names) = Some names.
Proof.
  induction names as [|n names IH]; simpl; [reflexivity | now rewrite IH].
Qed.

Lemma keeps_all_names (names : list string) :
  filter (keeps "") (map JStr names) = map JStr names.
Proof.
  induction names as [|n names IH]; simpl; [reflexivity|].
  unfold keeps at 1. simpl. rewrite str_in_empty. now rewrite IH.
Qed.

Lemma names_not_scalar (names : list string) :
  existsb scalar (map JStr names) = false.
Proof. induction names as [|n names IH]; simpl; auto. Qed.

Section EmptyTerm.

Variable Remote : Type.
Variable serve : string -> Remote -> option Response * Remote.

(** On such a repository [search] with the empty term and [list] end the
    same way, whatever the fetch gives. *)
Lemma search_empty_like_list (r : PkgRepo) (rm : Remote) :
  names_when_served serve r ->
  (value_of (PkgRepo_search serve r "" rm),
   state_of (PkgRepo_search serve r "" rm))
  = (value_of (PkgRepo_list serve r rm), state_of (PkgRepo_list serve r rm)).
Proof.
  intros Hr. rewrite PkgRepo_search_outcome, PkgRepo_list_outcome. cbv zeta.
  pose proof (Hr rm) as Hnames.
  destruct (serve (catalog_url r) rm) as [[resp|] rm']; [|reflexivity].
  specialize (Hnames resp rm').
  destruct (body_json resp) as [data|]; [|reflexivity].
  destruct (Hnames data eq_refl eq_refl) as [names ->].
  simpl py_iter. simpl py_len. cbv beta iota.
  rewrite names_not_scalar, keeps_all_names. reflexivity.
Qed.

(** X26.  When the catalog of every registered repository is an array of
    names whenever it is fetched and parsed, searching the collection for
    the empty term ends as listing it ends: with the same mapping, or with
    the same exception when a host cannot be reached or a body is not
    JSON, and with the hosts in the same state. *)
Theorem RepoCollection_search_empty_is_list (c : RepoCollection)
  (rm : Remote) :
  (forall r, In r (dict_values (repos c)) -> names_when_served serve r) ->
  value_of (RepoCollection_search serve c "" rm)
  = value_of (RepoCollection_list serve c rm)
  /\ state_of (RepoCollection_search serve c "" rm)
     = state_of (RepoCollection_list serve c rm).
Proof.
  intros Hall.
  pose proof (gather_run Remote (fun r => PkgRepo_search serve r "")
                (fun r => "Searching repo " ++ name r ++ " for term "
                          ++ "" ++ "...")
                (dict_values (repos c)) rm) as Hs.
  pose proof (gather_run Remote (fun r => PkgRepo_list serve r)
                (fun r => "Fetching packages in repo " ++ name r ++ "...")
                (dict_values (repos c)) rm) as Hl.
  cbv zeta in Hs, Hl.
  rewrite (ask_each_ext (fun r => PkgRepo_search serve r "")
             (fun r => PkgRepo_list serve r)) in Hs.
  - rewrite <- Hl in Hs. unfold RepoCollection_search, RepoCollection_list.
    injection Hs as Hv Hst. split; [exact Hv | exact Hst].
  - intros r st Hr. apply search_empty_like_list. now apply Hall.
Qed.

End EmptyTerm.

Lemma B_unreachable_names (r : PkgRepo) :
  In r (dict_values (repos collectionAB)) ->
  names_when_served (static B_unreachable) r.
Proof.
  intros [<-|[<-|[]]] rm resp rm' data Hserve Hbody.
  - injection Hserve as <- _. injection Hbody as <-.
    now exists ["foo"; "foobar"; "baz"].
  - discriminate Hserve.
Defined.

Lemma RepoCollection_search_empty_is_list_witness :
  (forall r, In r (dict_values (repos collectionAB)) ->
     names_when_served (static B_unreachable) r)
  /\ value_of (RepoCollection_search (static B_unreachable) collectionAB ""
                 tt)
     = Raise RequestException
  /\ value_of (RepoCollection_search (static B_unreachable) collectionAB ""
                 tt)
     = value_of (RepoCollection_list (static B_unreachable) collectionAB tt).
Proof.
  split; [exact B_unreachable_names|]. split; [reflexivity|].
  apply (RepoCollection_search_empty_is_list unit (static B_unreachable)
           collectionAB tt B_unreachable_names).
Defined.

(* ================================================================== *)
(** ** A catalog that is one string *)

(** Iterating a string visits its characters, not its bytes. *)
Example chars_of_a_e_acute : chars a_e_acute = ["a"; e_acute].
Proof. reflexivity. Qed.

Example len_of_a_e_acute : py_len (JStr a_e_acute) = Ok 2.
Proof. reflexivity. Qed.

(** [search] on such a catalog iterates the characters of the string;
    [list] returns the string. *)
Example search_in_string_catalog :
  value_of (PkgRepo_search (static string_catalog) repoA "" tt)
  = Ok (JArr [JStr "a"; JStr e_acute])
  /\ value_of (PkgRepo_list (static string_catalog) repoA tt)
     = Ok (JStr a_e_acute).
Proof. split; reflexivity. Qed.

Lemma chars_from_end_length (s : string) :
  String.length (fst (chars_from_end s))
  + list_sum (map String.length (snd (chars_from_end s)))
  = String.length s.
Proof.
  induction s as [|c s IH]; simpl; [reflexivity|].
  destruct (chars_from_end s) as [waiting complete]; simpl in *.
  destruct (continuation c); simpl; lia.
Qed.

(** The characters of a string are its bytes, regrouped. *)
Lemma chars_length (s : string) :
  list_sum (map String.length (chars s)) = String.length s.
Proof.
  unfold chars. pose proof (chars_from_end_length s) as H.
  destruct (chars_from_end s) as [[|c waiting] complete]; simpl in *; lia.
Qed.
